(** * The product search-and-rank engine and its result cache

    A shallow embedding of [utils/searchAlgorithm.js] (class
    [SearchAlgorithm]), of [services/searchService.js] (class
    [SearchService]) and of the parts of the product controller and of the
    request validator that feed them.

    Conventions of the embedding.
    - JavaScript numbers are exact rationals ([Q]); [Infinity] is a
      constructor of its own where the code uses it.  Numeric equalities are
      stated with [==].
    - Strings are ASCII [string]s; [toLowerCase], [trim], [includes] and
      [split(/\s+/)] are written out below.
    - A JavaScript [Map] whose iteration order is observed is an association
      list in insertion order; the result cache, whose order is never
      observed, is a [gmap].
    - [Date.now()] is the stream [clock], read through a counter kept in the
      service state: every call of [Date.now()] consumes one reading.
    - Fuse.js, [String.prototype.localeCompare], the catalogue repository and
      the JSON/base64 encoder of the cache key are external to the
      repository: they are parameters of the development.
    - The catalogue repository ([supabaseService]) is taken by the result
      objects it hands to the search service.  The error it throws when a
      query fails (['Database operation failed: ...'], from
      [executeOperation]) and the readings of [Date.now()] that
      [executeOperation] takes for its own log are not part of the
      embedding: [ticks] numbers the readings of the search service and of
      the engine only. *)

From Stdlib Require Import QArith Qminmax ZArith Lia Lqa Ascii String Sorted.
From stdpp Require Import base option gmap strings list pretty.

Local Open Scope string_scope.
Local Open Scope list_scope.
Local Open Scope Z_scope.

(** ** Strings *)

Module Str.

Definition is_upper (c : ascii) : bool :=
  let n := nat_of_ascii c in (65 <=? n)%nat && (n <=? 90)%nat.

Definition lower_char (c : ascii) : ascii :=
  if is_upper c then ascii_of_nat (nat_of_ascii c + 32) else c.

(** [s.toLowerCase()] *)
Fixpoint toLowerCase (s : string) : string :=
  match s with
  | EmptyString => EmptyString
  | String c s' => String (lower_char c) (toLowerCase s')
  end.

(** the characters matched by [\s] and stripped by [trim] *)
Definition is_ws (c : ascii) : bool :=
  let n := nat_of_ascii c in
  ((9 <=? n)%nat && (n <=? 13)%nat) || (n =? 32)%nat.

Fixpoint trimStart (s : string) : string :=
  match s with
  | EmptyString => EmptyString
  | String c s' => if is_ws c then trimStart s' else s
  end.

Fixpoint all_ws (s : string) : bool :=
  match s with
  | EmptyString => true
  | String c s' => is_ws c && all_ws s'
  end.

Fixpoint trimEnd (s : string) : string :=
  match s with
  | EmptyString => EmptyString
  | String c s' => if all_ws s then EmptyString else String c (trimEnd s')
  end.

(** [s.trim()] *)
Definition trim (s : string) : string := trimEnd (trimStart s).

(** [s.includes(sub)] *)
Fixpoint includes (s sub : string) : bool :=
  String.prefix sub s ||
  match s with
  | EmptyString => false
  | String _ s' => includes s' sub
  end.

(** truthiness of a string value: [""] is falsy *)
Definition truthy (s : string) : bool :=
  match s with EmptyString => false | _ => true end.

(** [split(/\s+/)], as a scan: [cur] is the piece being read (reversed),
    [in_ws] tells whether the last character read was a separator. *)
Fixpoint split_go (s : string) (cur : string) (in_ws : bool) : list string :=
  match s with
  | EmptyString => [String.rev cur]
  | String c s' =>
      if is_ws c
      then (if in_ws then split_go s' cur true
            else String.rev cur :: split_go s' EmptyString true)
      else split_go s' (String c cur) false
  end.

Definition split_ws (s : string) : list string := split_go s EmptyString false.

End Str.

(** ** Data model *)

(** The joined [brand] / [category] row of a product *)
Record Ref := mkRef {
  ref_id : string;
  ref_name : string;
  ref_slug : string
}.

(** A row of [products] with its joins, as the repository returns it.
    [price] is [None] where [parseFloat(product.price)] is [NaN];
    [average_rating] is [None] where the field is absent. *)
Record Product := mkProduct {
  id : string;
  name : string;
  model : option string;
  description : option string;
  brand : option Ref;
  category : option Ref;
  price : option Q;
  stock_quantity : Z;
  status : string;
  is_featured : bool;
  is_bestseller : bool;
  average_rating : option Q;
  created_at : Z;
  keywords : list string
}.

(** [maxPrice] after defaulting: a number or [Infinity] *)
Inductive Bound :=
| Finite (q : Q)
| Infinity.

Record Filters := mkFilters {
  f_brand : string;
  f_category : string;
  f_minPrice : Q;
  f_maxPrice : Bound;
  f_inStock : bool
}.

Definition Qltb (a b : Q) : bool := negb (Qle_bool b a).

(** [a > b] where [b] may be [Infinity] *)
Definition gt_bound (a : Q) (b : Bound) : bool :=
  match b with
  | Finite q => Qltb q a
  | Infinity => false
  end.

(** [parseFloat(x) || 0] *)
Definition parseFloat_or0 (x : option Q) : Q := default 0%Q x.

(** [product.brand?.slug !== s] (also [category]) *)
Definition slug_differs (r : option Ref) (s : string) : bool :=
  match r with
  | Some b => negb (String.eqb (ref_slug b) s)
  | None => true
  end.

(** ** Filter stage *)

(** The callback of [applyBasicFilters], with its early returns in order. *)
Definition keep_product (filters : Filters) (product : Product) : bool :=
  if Str.truthy (f_brand filters) && slug_differs (brand product) (f_brand filters)
  then false
  else if Str.truthy (f_category filters)
          && slug_differs (category product) (f_category filters)
  then false
  else
    let price := parseFloat_or0 (price product) in
    if Qltb price (f_minPrice filters) then false
    else if gt_bound price (f_maxPrice filters) then false
    else if f_inStock filters && (stock_quantity product <=? 0) then false
    else if negb (String.eqb (status product) "active") then false
    else true.

Definition applyBasicFilters (products : list Product) (filters : Filters)
  : list Product :=
  List.filter (keep_product filters) products.

(** The filter stage in the words of the specification: the conjunction of
    the five conditions. *)
Module FilterSpec.

Definition brand_ok (f : Filters) (p : Product) : Prop :=
  f_brand f <> "" -> exists b, brand p = Some b /\ ref_slug b = f_brand f.

Definition category_ok (f : Filters) (p : Product) : Prop :=
  f_category f <> "" ->
  exists c, category p = Some c /\ ref_slug c = f_category f.

Definition price_ok (f : Filters) (p : Product) : Prop :=
  (f_minPrice f <= parseFloat_or0 (price p))%Q /\
  match f_maxPrice f with
  | Finite hi => (parseFloat_or0 (price p) <= hi)%Q
  | Infinity => True
  end.

Definition stock_ok (f : Filters) (p : Product) : Prop :=
  f_inStock f = true -> stock_quantity p > 0.

Definition satisfies (f : Filters) (p : Product) : Prop :=
  status p = "active" /\ brand_ok f p /\ category_ok f p /\
  price_ok f p /\ stock_ok f p.

End FilterSpec.

(** ** JavaScript containers *)

(** A [Map] with string keys, in insertion order: [set] on a key already
    present keeps its position. *)
Module JsMap.

Definition t (V : Type) : Type := list (string * V).

Definition empty {V} : t V := [].

Fixpoint get {V} (k : string) (m : t V) : option V :=
  match m with
  | [] => None
  | (k', v) :: m' => if String.eqb k' k then Some v else get k m'
  end.

Definition has {V} (k : string) (m : t V) : bool :=
  match get k m with Some _ => true | None => false end.

Fixpoint set {V} (k : string) (v : V) (m : t V) : t V :=
  match m with
  | [] => [(k, v)]
  | (k', v') :: m' =>
      if String.eqb k' k then (k', v) :: m' else (k', v') :: set k v m'
  end.

Definition entries {V} (m : t V) : list (string * V) := m.

Definition values {V} (m : t V) : list V := List.map snd m.

End JsMap.

(** [arr.slice(start, end)] for integer arguments: a negative index counts
    from the end, and both are clamped to the length. *)
Definition slice_index (len i : Z) : Z :=
  if i <? 0 then Z.max (len + i) 0 else Z.min i len.

Definition js_slice {A} (arr : list A) (start stop : Z) : list A :=
  let len := Z.of_nat (length arr) in
  let k := slice_index len start in
  let final := slice_index len stop in
  List.firstn (Z.to_nat (final - k)) (List.skipn (Z.to_nat k) arr).

(** [arr.sort(cmp)]: the sort is stable; [x] moves behind [y] exactly when
    [cmp(x, y) > 0]. *)
Fixpoint sort_insert {A} (cmp : A -> A -> Q) (x : A) (l : list A) : list A :=
  match l with
  | [] => [x]
  | y :: l' =>
      if Qltb 0 (cmp x y) then y :: sort_insert cmp x l' else x :: y :: l'
  end.

Fixpoint js_sort {A} (cmp : A -> A -> Q) (l : list A) : list A :=
  match l with
  | [] => []
  | x :: l' => sort_insert cmp x (js_sort cmp l')
  end.

(** ** Match records *)

(** An entry of a record's [matches]: the [{field, value}] pairs of the
    exact and partial matchers, or an entry of Fuse's [includeMatches]. *)
Inductive MatchInfo :=
| FieldMatch (field value : string)
| FuseMatch (key value : string) (indices : list (nat * nat)).

Record MatchRecord := mkMatch {
  item : Product;
  score : Q;
  matches : list MatchInfo;
  algorithm : option string;
  refIndex : option nat
}.

(** [existing.score = s]: the one field the merge writes *)
Definition with_score (r : MatchRecord) (s : Q) : MatchRecord :=
  {| item := item r; score := s; matches := matches r;
     algorithm := algorithm r; refIndex := refIndex r |}.

(** ** External collaborators *)

Record FuseOptions := mkFuseOptions {
  threshold : Q;
  distance : Z;
  minMatchCharLength : Z;
  includeScore : bool;
  includeMatches : bool;
  keys : list (string * Q)
}.

(** A result of [fuse.search] under [includeScore] and [includeMatches] *)
Record FuseResult := mkFuseResult {
  fr_item : Product;
  fr_refIndex : nat;
  fr_score : Q;
  fr_matches : list MatchInfo
}.

(** ** Requests and responses *)

(** The [searchParams] object; [None] is an absent ([undefined]) field. *)
Record SearchParams := mkParams {
  query : option string;
  p_brand : option string;
  p_category : option string;
  minPrice : option Q;
  maxPrice : option Q;
  inStock : option bool;
  sortBy : option string;
  sortOrder : option string;
  limit : option Z;
  offset : option Z
}.

(** [keyData] of [generateCacheKey] *)
Record KeyData := mkKeyData {
  k_query : string;
  k_brand : string;
  k_category : string;
  k_minPrice : Q;
  k_maxPrice : option Q;
  k_inStock : bool;
  k_sortBy : string;
  k_sortOrder : string;
  k_limit : Z;
  k_offset : Z
}.

(** The [filters] passed to the repository's [getProducts] *)
Record DbFilters := mkDbFilters {
  db_status : string;
  db_brand_id : option string;
  db_category_id : option string
}.

(** The echo of the filters in the response metadata: [search] echoes the
    defaulted values, the empty response those of [extractFilters]. *)
Record FilterEcho := mkEcho {
  e_brand : option string;
  e_category : option string;
  e_minPrice : Q;
  e_maxPrice : option Bound;
  e_inStock : bool
}.

Record Metadata := mkMetadata {
  total : Z;
  m_limit : Z;
  m_offset : Z;
  hasNext : bool;
  hasPrev : bool;
  duration : Z;
  m_query : string;
  m_filters : FilterEcho
}.

(** An element of [results]: the product's own fields with [_searchScore]
    and [_matches], and after [enhanceSearchResults] the stock fields
    ([None] before).  The two display strings built with [toFixed] are left
    out. *)
Record ResultItem := mkResultItem {
  r_product : Product;
  _searchScore : Q;
  _matches : list MatchInfo;
  in_stock : option bool;
  stock_status : option string
}.

Record SearchResult := mkSearchResult {
  results : list ResultItem;
  metadata : Metadata
}.

(** ** External collaborators *)

(** What the engine is given from outside the repository. *)
Class Externals := {
  (** [new Fuse(products, options).search(query)] *)
  Fuse_search : FuseOptions -> list Product -> string -> list FuseResult;
  (** [a.localeCompare(b)] *)
  localeCompare : string -> string -> Q;
  (** the successive readings of [Date.now()], in milliseconds *)
  clock : nat -> Z;
  (** [Buffer.from(JSON.stringify(keyData)).toString('base64')] *)
  encode : KeyData -> string;
  (** [supabaseService.getBrands(false)]: the rows, or [None] where the
      call fails (the slug lookup catches the error and answers [null]) *)
  getBrands : option (list Ref);
  (** [supabaseService.getCategories(false)] *)
  getCategories : option (list Ref);
  (** [supabaseService.getProducts(filters, pagination)] under the fixed
      pagination of [getProductsForSearch]: the rows of a result whose
      [success] is true, or [None] for a result whose [success] is false.
      As [executeOperation] is written the repository never returns the
      latter (it throws instead), so [None] is the test
      [if (!result.success)] of [getProductsForSearch] taken at its word. *)
  getProducts : DbFilters -> option (list Product)
}.

(** ** Matching stage *)

Definition fuseOptions : FuseOptions :=
  {| threshold := 4 # 10;
     distance := 100;
     minMatchCharLength := 2;
     includeScore := true;
     includeMatches := true;
     keys := [("name", 4 # 10); ("brand.name", 3 # 10);
              ("category.name", 15 # 100); ("description", 1 # 10);
              ("model", 25 # 100); ("keywords", 2 # 10)] |}.

(** [{ ...result, algorithm: "fuzzy" }] *)
Definition fuzzy_record (result : FuseResult) : MatchRecord :=
  {| item := fr_item result;
     score := fr_score result;
     matches := fr_matches result;
     algorithm := Some "fuzzy";
     refIndex := Some (fr_refIndex result) |}.

Definition fuzzySearch `{Externals} (products : list Product) (q : string)
  : list MatchRecord :=
  List.map fuzzy_record (Fuse_search fuseOptions products q).

(** [s && s.toLowerCase().includes(w)] for a field that may be absent *)
Definition field_includes (s : option string) (w : string) : bool :=
  match s with
  | Some v => Str.truthy v && Str.includes (Str.toLowerCase v) w
  | None => false
  end.

(** [product.brand?.name] (also [category]) *)
Definition ref_name_of (r : option Ref) : option string :=
  match r with Some b => Some (ref_name b) | None => None end.

(** One guarded block of a matcher: on a hit add [w] to the score and push
    [{field, value}]. *)
Definition hit (field : string) (value : option string) (word : string) (w : Q)
    (acc : Q * list MatchInfo) : Q * list MatchInfo :=
  if field_includes value word
  then ((fst acc + w)%Q, snd acc ++ [FieldMatch field (default "" value)])
  else acc.

Definition exact_score (product : Product) (queryLower : string)
  : Q * list MatchInfo :=
  let acc := (0%Q, []) in
  let acc := hit "name" (Some (name product)) queryLower (9 # 10) acc in
  let acc := hit "model" (model product) queryLower (8 # 10) acc in
  hit "brand" (ref_name_of (brand product)) queryLower (7 # 10) acc.

Definition findExactMatches (products : list Product) (q : string)
  : list MatchRecord :=
  let queryLower := Str.toLowerCase q in
  List.flat_map
    (fun product =>
       let '(score, matches) := exact_score product queryLower in
       if Qltb 0 score
       then [{| item := product; score := Qmin score 1; matches := matches;
                algorithm := Some "exact"; refIndex := None |}]
       else [])
    products.

(** The body of [queryWords.forEach] for one word *)
Definition partial_word (product : Product) (acc : Q * list MatchInfo)
    (word : string) : Q * list MatchInfo :=
  let acc := hit "name" (Some (name product)) word (3 # 10) acc in
  let acc := hit "brand" (ref_name_of (brand product)) word (2 # 10) acc in
  let acc := hit "category" (ref_name_of (category product)) word (15 # 100) acc in
  hit "model" (model product) word (15 # 100) acc.

Definition findPartialMatches (products : list Product) (q : string)
  : list MatchRecord :=
  let queryWords := Str.split_ws (Str.toLowerCase q) in
  List.flat_map
    (fun product =>
       let '(score, matches) :=
         List.fold_left (partial_word product) queryWords (0%Q, []) in
       if Qltb 0 score
       then [{| item := product; score := Qmin score 1; matches := matches;
                algorithm := Some "partial"; refIndex := None |}]
       else [])
    products.

(** [[...new Set(arr)]]: first occurrences, in order *)
Fixpoint dedup_first (seen : list string) (l : list string) : list string :=
  match l with
  | [] => []
  | x :: l' =>
      if List.existsb (String.eqb x) seen then dedup_first seen l'
      else x :: dedup_first (x :: seen) l'
  end.

Definition lower_if_truthy (s : option string) : list string :=
  match s with
  | Some v => if Str.truthy v then [Str.toLowerCase v] else []
  | None => []
  end.

Definition generateKeywords (product : Product) : list string :=
  let keywords :=
    (if Str.truthy (name product)
     then Str.split_ws (Str.toLowerCase (name product)) else [])
    ++ lower_if_truthy (ref_name_of (brand product))
    ++ lower_if_truthy (ref_name_of (category product))
    ++ lower_if_truthy (model product) in
  dedup_first []
    (List.filter (fun keyword => Str.truthy keyword && (1 <? String.length keyword)%nat)
       keywords).

(** [{ ...product, keywords: this.generateKeywords(product) }] *)
Definition searchable (product : Product) : Product :=
  {| id := id product; name := name product; model := model product;
     description := description product; brand := brand product;
     category := category product; price := price product;
     stock_quantity := stock_quantity product; status := status product;
     is_featured := is_featured product; is_bestseller := is_bestseller product;
     average_rating := average_rating product; created_at := created_at product;
     keywords := generateKeywords product |}.

(** ** Merge and score stage *)

(** The body of the inner [forEach] of [combineSearchResults] *)
Definition combine_step (resultsMap : JsMap.t MatchRecord) (result : MatchRecord)
  : JsMap.t MatchRecord :=
  let productId := id (item result) in
  match JsMap.get productId resultsMap with
  | Some existing =>
      JsMap.set productId
        (with_score existing (Qmax (score existing) (score result))) resultsMap
  | None => JsMap.set productId result resultsMap
  end.

Definition combineSearchResults (resultArrays : list (list MatchRecord))
  : list MatchRecord :=
  JsMap.values
    (List.fold_left
       (fun resultsMap results => List.fold_left combine_step results resultsMap)
       resultArrays JsMap.empty).

Definition performTextSearch `{Externals} (products : list Product) (q : string)
  : list MatchRecord :=
  let searchableProducts := List.map searchable products in
  let fuseResults := fuzzySearch searchableProducts q in
  let exactMatches := findExactMatches searchableProducts q in
  let partialMatches := findPartialMatches searchableProducts q in
  combineSearchResults [fuseResults; exactMatches; partialMatches].

(** [x > n] for a field that may be absent: [undefined > n] is false *)
Definition opt_gt (x : option Q) (n : Q) : bool :=
  match x with Some v => Qltb n v | None => false end.

(** The score of [applyAdvancedScoring] before the final [Math.min] *)
Definition boosted (result : MatchRecord) : Q :=
  let score := score result in
  let product := item result in
  let score := if is_featured product then (score * (12 # 10))%Q else score in
  let score := if is_bestseller product then (score * (115 # 100))%Q else score in
  let score := if opt_gt (average_rating product) 4 then (score * (11 # 10))%Q else score in
  let score := if 10 <? stock_quantity product then (score * (105 # 100))%Q else score in
  let score := if stock_quantity product <=? 0 then (score * (5 # 10))%Q else score in
  score.

Definition applyAdvancedScoring (results : list MatchRecord) : list MatchRecord :=
  List.map (fun result => with_score result (Qmin (boosted result) 1)) results.

(** ** Sort and paginate stage *)

(** The comparator of [sortResults], before the order multiplier *)
Definition comparison `{Externals} (sortBy : string) (a b : MatchRecord) : Q :=
  if String.eqb sortBy "relevance" then (score b - score a)%Q
  else if String.eqb sortBy "price" then
    (parseFloat_or0 (price (item a)) - parseFloat_or0 (price (item b)))%Q
  else if String.eqb sortBy "name" then
    localeCompare (name (item a)) (name (item b))
  else if String.eqb sortBy "rating" then
    (default 0%Q (average_rating (item b)) - default 0%Q (average_rating (item a)))%Q
  else (score b - score a)%Q.

Definition sortResults `{Externals} (results : list MatchRecord)
    (sortBy sortOrder : string) : list MatchRecord :=
  let orderMultiplier : Q := if String.eqb sortOrder "asc" then 1%Q else (-1)%Q in
  js_sort (fun a b => (comparison sortBy a b * orderMultiplier)%Q) results.

(** ** Process state *)

Record CacheEntry := mkEntry {
  data : SearchResult;
  expiry : Z
}.

(** What the two singletons hold: the service's [searchCache], the
    algorithm's [popularSearches], and the number of [Date.now()] readings
    taken so far. *)
Record World := mkWorld {
  searchCache : gmap string CacheEntry;
  popularSearches : JsMap.t Z;
  ticks : nat
}.

(** Computations over the process state *)
Definition M (A : Type) : Type := World -> A * World.

#[global] Instance M_ret : MRet M := fun A (a : A) w => (a, w).

#[global] Instance M_bind : MBind M :=
  fun A B (k : A -> M B) (m : M A) w => let '(a, w') := m w in k a w'.

(** The state once one more reading of the clock has been taken *)
Definition tick (w : World) : World :=
  {| searchCache := searchCache w; popularSearches := popularSearches w;
     ticks := S (ticks w) |}.

Definition Date_now `{Externals} : M Z :=
  fun w => (clock (ticks w), tick w).

Definition with_cache (c : gmap string CacheEntry) (w : World) : World :=
  {| searchCache := c; popularSearches := popularSearches w; ticks := ticks w |}.

Definition with_popular (p : JsMap.t Z) (w : World) : World :=
  {| searchCache := searchCache w; popularSearches := p; ticks := ticks w |}.

(** ** Popularity tracker *)

Definition logSearchAnalytics (q : string) (resultCount : Z) : M unit :=
  fun w =>
    if Str.truthy q then
      let normalized := Str.trim (Str.toLowerCase q) in
      let count := default 0 (JsMap.get normalized (popularSearches w)) in
      (tt, with_popular (JsMap.set normalized (count + 1) (popularSearches w)) w)
    else (tt, w).

(** [getPopularSearches(limit)]; the pairs are the [{query, count}] objects *)
Definition getPopularSearches (lim : Z) (w : World) : list (string * Z) :=
  js_slice
    (js_sort (fun a b => inject_Z (snd b - snd a)) (JsMap.entries (popularSearches w)))
    0 lim.

(** ** The engine's entry point *)

Definition unscored (product : Product) : MatchRecord :=
  {| item := product; score := 1; matches := []; algorithm := None;
     refIndex := None |}.

(** [{ ...result.item, _searchScore: result.score, _matches: result.matches }] *)
Definition to_result_item (result : MatchRecord) : ResultItem :=
  {| r_product := item result; _searchScore := score result;
     _matches := matches result; in_stock := None; stock_status := None |}.

Definition bound_of (x : option Q) : Bound :=
  match x with Some q => Finite q | None => Infinity end.

(** Steps 1 to 4 of [search]: filter, match, score and sort *)
Definition rankedResults `{Externals} (products : list Product)
    (searchParams : SearchParams) : list MatchRecord :=
  let query := default "" (query searchParams) in
  let brand := default "" (p_brand searchParams) in
  let category := default "" (p_category searchParams) in
  let minPrice := default 0%Q (minPrice searchParams) in
  let maxPrice := bound_of (maxPrice searchParams) in
  let inStock := default false (inStock searchParams) in
  let sortBy := default "relevance" (sortBy searchParams) in
  let sortOrder := default "desc" (sortOrder searchParams) in
  let filteredProducts :=
    applyBasicFilters products
      {| f_brand := brand; f_category := category; f_minPrice := minPrice;
         f_maxPrice := maxPrice; f_inStock := inStock |} in
  let searchResults :=
    if Str.truthy query && (0 <? String.length (Str.trim query))%nat
    then performTextSearch filteredProducts (Str.trim query)
    else List.map unscored filteredProducts in
  let searchResults := applyAdvancedScoring searchResults in
  sortResults searchResults sortBy sortOrder.

Definition search `{Externals} (products : list Product) (searchParams : SearchParams)
  : M SearchResult :=
  startTime ← Date_now;
  let query := default "" (query searchParams) in
  let brand := default "" (p_brand searchParams) in
  let category := default "" (p_category searchParams) in
  let minPrice := default 0%Q (minPrice searchParams) in
  let maxPrice := bound_of (maxPrice searchParams) in
  let inStock := default false (inStock searchParams) in
  let limit := default 50 (limit searchParams) in
  let offset := default 0 (offset searchParams) in
  let searchResults := rankedResults products searchParams in
  let totalResults := Z.of_nat (length searchResults) in
  let paginatedResults := js_slice searchResults offset (offset + limit) in
  _ ← logSearchAnalytics query totalResults;
  endTime ← Date_now;
  let duration := endTime - startTime in
  mret {| results := List.map to_result_item paginatedResults;
         metadata :=
           {| total := totalResults;
              m_limit := limit;
              m_offset := offset;
              hasNext := offset + limit <? totalResults;
              hasPrev := 0 <? offset;
              duration := duration;
              m_query := query;
              m_filters :=
                {| e_brand := Some brand; e_category := Some category;
                   e_minPrice := minPrice; e_maxPrice := Some maxPrice;
                   e_inStock := inStock |} |} |}.

(** ** Result cache *)

(** [this.cacheExpiry = 5 * 60 * 1000] *)
Definition cacheExpiry : Z := 5 * 60 * 1000.

(** [x || d] on a string that may be absent *)
Definition or_str (x : option string) (d : string) : string :=
  match x with
  | Some s => if Str.truthy s then s else d
  | None => d
  end.

(** [x || d] on an integer that may be absent *)
Definition or_Z (x : option Z) (d : Z) : Z :=
  match x with
  | Some n => if n =? 0 then d else n
  | None => d
  end.

(** [x || d] on a number that may be absent *)
Definition or_Q (x : option Q) (d : Q) : Q :=
  match x with
  | Some q => if Qeq_bool q 0 then d else q
  | None => d
  end.

(** [x || ''] and [x || null] on a number: the number when it is truthy *)
Definition truthy_Q (x : option Q) : option Q :=
  match x with
  | Some q => if Qeq_bool q 0 then None else Some q
  | None => None
  end.

(** [x || null] on a string *)
Definition truthy_str (x : option string) : option string :=
  match x with
  | Some s => if Str.truthy s then Some s else None
  | None => None
  end.

Definition keyData (searchParams : SearchParams) : KeyData :=
  {| k_query := or_str (query searchParams) "";
     k_brand := or_str (p_brand searchParams) "";
     k_category := or_str (p_category searchParams) "";
     k_minPrice := or_Q (minPrice searchParams) 0;
     k_maxPrice := truthy_Q (maxPrice searchParams);
     k_inStock := default false (inStock searchParams);
     k_sortBy := or_str (sortBy searchParams) "relevance";
     k_sortOrder := or_str (sortOrder searchParams) "desc";
     k_limit := or_Z (limit searchParams) 50;
     k_offset := or_Z (offset searchParams) 0 |}.

Definition generateCacheKey `{Externals} (searchParams : SearchParams) : string :=
  encode (keyData searchParams).

Definition getFromCache `{Externals} (key : string) : M (option SearchResult) :=
  fun w =>
    match searchCache w !! key with
    | None => (None, w)
    | Some cached =>
        let '(now, w) := Date_now w in
        if expiry cached <? now
        then (None, with_cache (delete key (searchCache w)) w)
        else (Some (data cached), w)
    end.

Definition clearExpiredCache `{Externals} : M unit :=
  fun w =>
    let '(now, w) := Date_now w in
    (tt, with_cache
           (filter (fun kv : string * CacheEntry => ¬ (expiry (snd kv) < now))
                   (searchCache w)) w).

Definition setCache `{Externals} (key : string) (d : SearchResult) : M unit :=
  fun w =>
    let '(_, w) :=
      if (100 <? size (searchCache w))%nat then clearExpiredCache w else (tt, w) in
    let '(now, w) := Date_now w in
    (tt, with_cache
           (<[key := {| data := d; expiry := now + cacheExpiry |}]> (searchCache w)) w).

(** [clearCache()] *)
Definition clearCache : M unit :=
  fun w => (tt, with_cache ∅ w).

(** The object returned by [getCacheStats()] *)
Record CacheStats := mkCacheStats {
  totalEntries : Z;
  activeEntries : Z;
  expiredEntries : Z;
  stats_cacheExpiry : Z
}.

(** [getCacheStats()]: the loop counts the entries with [now > value.expiry] *)
Definition getCacheStats `{Externals} : M CacheStats :=
  fun w =>
    let totalEntries := Z.of_nat (size (searchCache w)) in
    let '(now, w) := Date_now w in
    let expiredEntries :=
      Z.of_nat (size (filter (fun kv : string * CacheEntry => expiry (snd kv) < now)
                        (searchCache w))) in
    ({| totalEntries := totalEntries;
        activeEntries := totalEntries - expiredEntries;
        expiredEntries := expiredEntries;
        stats_cacheExpiry := cacheExpiry |}, w).

(** ** Search service *)

Definition find_id_by_slug (rows : option (list Ref)) (slug : string)
  : option string :=
  match rows with
  | Some l =>
      match List.find (fun b => String.eqb (ref_slug b) slug) l with
      | Some b => Some (ref_id b)
      | None => None
      end
  | None => None
  end.

Definition getBrandIdBySlug `{Externals} (slug : string) : option string :=
  find_id_by_slug getBrands slug.

Definition getCategoryIdBySlug `{Externals} (slug : string) : option string :=
  find_id_by_slug getCategories slug.

(** [getProductsForSearch]: [None] is the branch [if (!result.success)],
    which throws ['Failed to fetch products for search']; a repository that
    throws by itself is outside the embedding. *)
Definition getProductsForSearch `{Externals} (searchParams : SearchParams)
  : option (list Product) :=
  getProducts
    {| db_status := "active";
       db_brand_id :=
         match truthy_str (p_brand searchParams) with
         | Some slug => getBrandIdBySlug slug
         | None => None
         end;
       db_category_id :=
         match truthy_str (p_category searchParams) with
         | Some slug => getCategoryIdBySlug slug
         | None => None
         end |}.

Definition extractFilters (searchParams : SearchParams) : FilterEcho :=
  {| e_brand := truthy_str (p_brand searchParams);
     e_category := truthy_str (p_category searchParams);
     e_minPrice := or_Q (minPrice searchParams) 0;
     e_maxPrice := option_map Finite (truthy_Q (maxPrice searchParams));
     e_inStock := default false (inStock searchParams) |}.

Definition getStockStatus (quantity : Z) : string :=
  if quantity <=? 0 then "out_of_stock"
  else if quantity <=? 5 then "low_stock"
  else if quantity <=? 20 then "medium_stock"
  else "in_stock".

Definition enhance_item (product : ResultItem) : ResultItem :=
  {| r_product := r_product product;
     _searchScore := _searchScore product;
     _matches := _matches product;
     in_stock := Some (0 <? stock_quantity (r_product product));
     stock_status := Some (getStockStatus (stock_quantity (r_product product))) |}.

Definition enhanceSearchResults (searchResult : SearchResult) : SearchResult :=
  {| results := List.map enhance_item (results searchResult);
     metadata := metadata searchResult |}.

(** The response of the short-circuit on an empty candidate list *)
Definition emptyResult (searchParams : SearchParams) (startTime now : Z)
  : SearchResult :=
  {| results := [];
     metadata :=
       {| total := 0;
          m_limit := or_Z (limit searchParams) 50;
          m_offset := or_Z (offset searchParams) 0;
          hasNext := false;
          hasPrev := false;
          duration := now - startTime;
          m_query := or_str (query searchParams) "";
          m_filters := extractFilters searchParams |} |}.

(** How a call ends: with its value, or with the error it throws *)
Inductive Outcome (A : Type) :=
| Returned (a : A)
| Thrown (message : string).
Arguments Returned {A} a.
Arguments Thrown {A} message.

(** [searchProducts] past the cache check: steps 1 to 4 and the catch block *)
Definition computeAndCache `{Externals} (searchParams : SearchParams)
    (startTime : Z) (cacheKey : string) : M (Outcome SearchResult) :=
  match getProductsForSearch searchParams with
  | None =>
      _ ← Date_now;
      mret (Thrown "Failed to fetch products for search")
  | Some [] =>
      now ← Date_now;
      let r := emptyResult searchParams startTime now in
      _ ← setCache cacheKey r;
      mret (Returned r)
  | Some products =>
      searchResult ← search products searchParams;
      let enhancedResult := enhanceSearchResults searchResult in
      _ ← setCache cacheKey enhancedResult;
      _ ← Date_now;
      mret (Returned enhancedResult)
  end.

Definition searchProducts `{Externals} (searchParams : SearchParams)
  : M (Outcome SearchResult) :=
  startTime ← Date_now;
  let cacheKey := generateCacheKey searchParams in
  cachedResult ← getFromCache cacheKey;
  match cachedResult with
  | Some r => mret (Returned r)
  | None => computeAndCache searchParams startTime cacheKey
  end.

(** ** API layer: [GET /api/products/search] *)

(** The query string of the request.  A numeric parameter that is present
    is the number its text denotes. *)
Record RawQuery := mkRaw {
  q_query : option string;
  q_q : option string;
  q_brand : option string;
  q_category : option string;
  q_min_price : option Q;
  q_max_price : option Q;
  q_in_stock : option string;
  q_sort_by : option string;
  q_sort_order : option string;
  q_limit : option Z;
  q_offset : option Z
}.

(** One chain of [validateProductSearch]: [.optional()] skips an absent
    value, otherwise the check decides whether the message is reported. *)
Definition check {A} (value : option A) (ok : A -> bool) (message : string)
  : list string :=
  match value with
  | Some v => if ok v then [] else [message]
  | None => []
  end.

Definition length_between (lo hi : nat) (s : string) : bool :=
  let n := String.length (Str.trim s) in (lo <=? n)%nat && (n <=? hi)%nat.

Definition is_in (allowed : list string) (s : string) : bool :=
  List.existsb (String.eqb s) allowed.

(** The messages collected by the chains of [validateProductSearch] *)
Definition validateProductSearch (req : RawQuery) : list string :=
  check (q_query req) (length_between 1 255)
    "Search query must be between 1 and 255 characters"
  ++ check (q_brand req) (length_between 1 100)
    "Brand filter must be between 1 and 100 characters"
  ++ check (q_category req) (length_between 1 100)
    "Category filter must be between 1 and 100 characters"
  ++ check (q_min_price req) (Qle_bool 0)
    "Minimum price must be a non-negative number"
  ++ check (q_max_price req) (Qle_bool 0)
    "Maximum price must be a non-negative number"
  ++ check (q_in_stock req) (is_in ["true"; "false"; "1"; "0"])
    "in_stock must be a boolean"
  ++ check (q_sort_by req)
    (is_in ["relevance"; "price"; "name"; "rating"; "date"; "stock"])
    "sort_by must be one of: relevance, price, name, rating, date, stock"
  ++ check (q_sort_order req) (is_in ["asc"; "desc"])
    "sort_order must be either asc or desc"
  ++ check (q_limit req) (fun n => (1 <=? n) && (n <=? 100))
    "Limit must be between 1 and 100"
  ++ check (q_offset req) (fun n => 0 <=? n)
    "Offset must be a non-negative integer".

(** The request after the [.trim()] sanitizers of the chains *)
Definition sanitized (req : RawQuery) : RawQuery :=
  {| q_query := option_map Str.trim (q_query req);
     q_q := q_q req;
     q_brand := option_map Str.trim (q_brand req);
     q_category := option_map Str.trim (q_category req);
     q_min_price := q_min_price req;
     q_max_price := q_max_price req;
     q_in_stock := q_in_stock req;
     q_sort_by := q_sort_by req;
     q_sort_order := q_sort_order req;
     q_limit := q_limit req;
     q_offset := q_offset req |}.

(** The [searchParams] built by the controller's [searchProducts] *)
Definition controllerParams (req : RawQuery) : SearchParams :=
  {| query := match truthy_str (q_query req) with
              | Some s => Some s
              | None => q_q req
              end;
     p_brand := q_brand req;
     p_category := q_category req;
     minPrice := Some (or_Q (q_min_price req) 0);
     maxPrice := q_max_price req;
     inStock := Some (match q_in_stock req with
                      | Some s => String.eqb s "true"
                      | None => false
                      end);
     sortBy := Some (or_str (q_sort_by req) "relevance");
     sortOrder := Some (or_str (q_sort_order req) "desc");
     limit := Some (Z.min (or_Z (q_limit req) 50) 100);
     offset := Some (or_Z (q_offset req) 0) |}.

Inductive HttpResponse :=
| Ok200 (result : SearchResult)
| BadRequest400 (errors : list string)
| ServerError500.

(** [router.get('/search', validateProductSearch, productController.searchProducts)] *)
Definition searchRoute `{Externals} (req : RawQuery) : M HttpResponse :=
  match validateProductSearch req with
  | [] =>
      out ← searchProducts (controllerParams (sanitized req));
      match out with
      | Returned result => mret (Ok200 result)
      | Thrown _ => mret ServerError500
      end
  | errors => mret (BadRequest400 errors)
  end.

(** [GET /api/products/search/popular]: the controller's
    [Math.min(parseInt(req.query.limit) || 10, 50)] and the call of the
    tracker; the route has no validator. *)
Definition popularSearchesRoute (rawLimit : option Z) (w : World)
  : list (string * Z) :=
  getPopularSearches (Z.min (or_Z rawLimit 10) 50) w.

(** ** The merge in the words of its description *)

(** The records of [rs] for the product [k], in order *)
Definition candidates (k : string) (rs : list MatchRecord) : list MatchRecord :=
  List.filter (fun r => String.eqb (id (item r)) k) rs.

(** The running maximum of a first score and of the scores that follow *)
Definition best_score (s0 : Q) (later : list MatchRecord) : Q :=
  List.fold_left (fun s r => Qmax s (score r)) later s0.

(** What the merge holds for the product [k] once the records [seen] have
    been read: the first of them, its score replaced by the maximum. *)
Definition merged_of (k : string) (seen : list MatchRecord) : option MatchRecord :=
  match candidates k seen with
  | [] => None
  | first :: later => Some (with_score first (best_score (score first) later))
  end.

(** What [resultsMap] holds after the records [seen] *)
Record merge_inv (m : JsMap.t MatchRecord) (seen : list MatchRecord) : Prop := {
  inv_get : forall k, JsMap.get k m = merged_of k seen;
  inv_keys : NoDup (List.map fst m)
}.

(** ** Invariants of the score *)

Definition unit_interval (s : Q) : Prop := (0 <= s)%Q /\ (s <= 1)%Q.

Definition scores_bounded (r : SearchResult) : Prop :=
  forall it, In it (results r) -> unit_interval (_searchScore it).

Definition cache_bounded (w : World) : Prop :=
  forall k e, searchCache w !! k = Some e -> scores_bounded (data e).

(** The contract of Fuse.js on the scores it reports *)
Definition fuse_scores_normalized `{Externals} : Prop :=
  forall opts ps q fr,
    In fr (Fuse_search opts ps q) -> unit_interval (fr_score fr).

(** ** Requests that differ in one field *)

(** [{ ...searchParams, maxPrice: m }] *)
Definition withMaxPrice (p : SearchParams) (m : option Q) : SearchParams :=
  {| query := query p; p_brand := p_brand p; p_category := p_category p;
     minPrice := minPrice p; maxPrice := m; inStock := inStock p;
     sortBy := sortBy p; sortOrder := sortOrder p; limit := limit p;
     offset := offset p |}.

(** [{ ...searchParams, limit: lim, offset: off }] *)
Definition withWindow (p : SearchParams) (lim off : Z) : SearchParams :=
  {| query := query p; p_brand := p_brand p; p_category := p_category p;
     minPrice := minPrice p; maxPrice := maxPrice p; inStock := inStock p;
     sortBy := sortBy p; sortOrder := sortOrder p; limit := Some lim;
     offset := Some off |}.

(** The filters [search] hands to [applyBasicFilters] *)
Definition filtersOf (p : SearchParams) : Filters :=
  {| f_brand := default "" (p_brand p);
     f_category := default "" (p_category p);
     f_minPrice := default 0%Q (minPrice p);
     f_maxPrice := bound_of (maxPrice p);
     f_inStock := default false (inStock p) |}.

(** The contract of Fuse.js on the items it reports: they are items of the
    list it was built on *)
Definition fuse_returns_candidates `{Externals} : Prop :=
  forall opts ps q fr, In fr (Fuse_search opts ps q) -> In (fr_item fr) ps.

(** A string none of whose non-empty suffixes is blank: it has no trailing
    white space *)
Fixpoint tight (s : string) : Prop :=
  match s with
  | EmptyString => True
  | String c s' => Str.all_ws s = false /\ tight s'
  end.

(** Whether a string holds a white-space character: a query without one is
    a single word *)
Fixpoint has_ws (s : string) : bool :=
  match s with
  | EmptyString => false
  | String c s' => Str.is_ws c || has_ws s'
  end.

(** Whether every character of a string is an ASCII character.  On such a
    string [\s] and [trim] know no other white space than [Str.is_ws]. *)
Fixpoint ascii_only (s : string) : bool :=
  match s with
  | EmptyString => true
  | String c s' => (nat_of_ascii c <? 128)%nat && ascii_only s'
  end.

(** A query of one word: ASCII characters, none of them white space *)
Definition one_word (q : string) : bool := ascii_only q && negb (has_ws q).

(** Whether [w] occurs in one of the fields that the exact and the partial
    matcher read: the name, the model, the brand name, the category name *)
Definition text_field_includes (product : Product) (w : string) : bool :=
  field_includes (Some (name product)) w
  || field_includes (model product) w
  || field_includes (ref_name_of (brand product)) w
  || field_includes (ref_name_of (category product)) w.

(** ** Sample data *)

Module Sample.

Definition google : Ref :=
  {| ref_id := "b1"; ref_name := "Google"; ref_slug := "google" |}.

Definition phones : Ref :=
  {| ref_id := "c1"; ref_name := "Phones"; ref_slug := "phones" |}.

Definition product (pid nm : string) (stock : Z) (featured : bool) : Product :=
  {| id := pid; name := nm; model := None; description := None;
     brand := Some google; category := Some phones;
     price := Some (499 # 1); stock_quantity := stock; status := "active";
     is_featured := featured; is_bestseller := false;
     average_rating := None; created_at := 0; keywords := [] |}.

Definition pixel8 : Product := product "p1" "Pixel 8" 5 true.
Definition pixel7 : Product := product "p2" "Pixel 7" 5 false.
Definition soldOut : Product := product "p3" "Pixel 6" 0 false.

(** Fuse's answer for [pixel8]: a close match, hence a small score *)
Definition fuseHit : FuseResult :=
  {| fr_item := searchable pixel8; fr_refIndex := 0; fr_score := 1 # 10;
     fr_matches := [FuseMatch "name" "Pixel 8" [(0, 4)%nat]] |}.

(** A product told apart by its stock and its creation time *)
Definition stocked (pid : string) (stock created : Z) : Product :=
  {| id := pid; name := "Phone"; model := None; description := None;
     brand := None; category := None; price := Some (499 # 1);
     stock_quantity := stock; status := "active"; is_featured := false;
     is_bestseller := false; average_rating := None; created_at := created;
     keywords := [] |}.

Definition record (p : Product) (s : Q) : MatchRecord :=
  {| item := p; score := s; matches := []; algorithm := None;
     refIndex := None |}.

(** Three scored records whose stock and creation time both grow along
    the list while their scores do not *)
Definition threeRecords : list MatchRecord :=
  [record (stocked "s1" 1 100) (5 # 10);
   record (stocked "s2" 2 200) (9 # 10);
   record (stocked "s3" 3 300) (7 # 10)].

(** A repository holding [catalog], a Fuse engine answering [fuse], a
    clock advancing by [step] milliseconds per reading, and a key encoder
    that tells requests apart by query, sort key and page window. *)
Definition world_of (catalog : list Product) (fuse : list FuseResult)
    (step : Z) : Externals :=
  {| Fuse_search := fun _ _ _ => fuse;
     localeCompare := fun a b =>
       match String.compare a b with
       | Lt => (-1)%Q
       | Eq => 0%Q
       | Gt => 1%Q
       end;
     clock := fun n => step * Z.of_nat n;
     encode := fun k =>
       String.concat "|"
         [k_query k; k_sortBy k; k_sortOrder k; pretty (k_limit k);
          pretty (k_offset k)];
     getBrands := Some [google];
     getCategories := Some [phones];
     getProducts := fun _ => Some catalog |}.

(** A shop of three phones, a Fuse engine that finds one of them, and a
    clock that advances one second per reading *)
Definition shop : Externals := world_of [pixel8; pixel7; soldOut] [fuseHit] 1000.

(** The same shop with a clock that advances four minutes per reading *)
Definition slowShop : Externals :=
  world_of [pixel8; pixel7; soldOut] [fuseHit] 240000.

(** A shop whose repository has no product to offer *)
Definition emptyShop : Externals := world_of [] [] 1000.

(** A phone that only its description tells apart, and Fuse's answer for
    the query "flagship": a perfect hit on the description, score 0 *)
Definition flagship : Product :=
  {| id := "p9"; name := "Phone X"; model := None;
     description := Some "flagship"; brand := None; category := None;
     price := Some (999 # 1); stock_quantity := 5; status := "active";
     is_featured := false; is_bestseller := false; average_rating := None;
     created_at := 0; keywords := [] |}.

Definition flagshipHit : FuseResult :=
  {| fr_item := searchable flagship; fr_refIndex := 0; fr_score := 0;
     fr_matches := [FuseMatch "description" "flagship" [(0, 7)%nat]] |}.

Definition start : World :=
  {| searchCache := ∅; popularSearches := JsMap.empty; ticks := 0 |}.

Definition noParams : SearchParams :=
  {| query := None; p_brand := None; p_category := None; minPrice := None;
     maxPrice := None; inStock := None; sortBy := None; sortOrder := None;
     limit := None; offset := None |}.

Definition byQuery (q : string) : SearchParams :=
  {| query := Some q; p_brand := None; p_category := None; minPrice := None;
     maxPrice := None; inStock := None; sortBy := None; sortOrder := None;
     limit := None; offset := None |}.

Definition window (lim off : option Z) : SearchParams :=
  {| query := None; p_brand := None; p_category := None; minPrice := None;
     maxPrice := None; inStock := None; sortBy := None; sortOrder := None;
     limit := lim; offset := off |}.

Definition rawWindow (lim off : option Z) : RawQuery :=
  {| q_query := None; q_q := None; q_brand := None; q_category := None;
     q_min_price := None; q_max_price := None; q_in_stock := None;
     q_sort_by := None; q_sort_order := None; q_limit := lim;
     q_offset := off |}.

(** A shop whose Fuse engine reports the first item of the list it is given *)
Definition firstHitShop : Externals :=
  {| Fuse_search := fun _ ps _ =>
       List.map (fun p => {| fr_item := p; fr_refIndex := 0; fr_score := 1 # 10;
                             fr_matches := [] |})
                (List.firstn 1 ps);
     localeCompare := fun _ _ => 0%Q;
     clock := fun n => 1000 * Z.of_nat n;
     encode := fun k => k_query k;
     getBrands := Some [google];
     getCategories := Some [phones];
     getProducts := fun _ => Some [pixel8; pixel7; soldOut] |}.

(** The query string [?sort_by=key] *)
Definition rawSortBy (key : string) : RawQuery :=
  {| q_query := None; q_q := None; q_brand := None; q_category := None;
     q_min_price := None; q_max_price := None; q_in_stock := None;
     q_sort_by := Some key; q_sort_order := None; q_limit := None;
     q_offset := None |}.

End Sample.

(** * Properties *)

(** ** Booleans of the embedding *)

Lemma Qltb_lt (a b : Q) : Qltb a b = true <-> (a < b)%Q.
Proof.
  unfold Qltb. rewrite negb_true_iff, <- not_true_iff_false, Qle_bool_iff.
  split; [apply Qnot_le_lt | apply Qlt_not_le].
Qed.

Lemma Qltb_ge (a b : Q) : Qltb a b = false <-> (b <= a)%Q.
Proof.
  unfold Qltb. rewrite negb_false_iff. apply Qle_bool_iff.
Qed.

Lemma truthy_nonempty (s : string) : Str.truthy s = true <-> s <> "".
Proof. destruct s; simpl; split; intros; congruence. Qed.

Lemma truthy_empty (s : string) : Str.truthy s = false <-> s = "".
Proof. destruct s; simpl; split; intros; congruence. Qed.

Lemma slug_differs_false (r : option Ref) (s : string) :
  slug_differs r s = false <-> exists b, r = Some b /\ ref_slug b = s.
Proof.
  destruct r as [b|]; simpl.
  - rewrite negb_false_iff, String.eqb_eq. split.
    + intros E. exists b. auto.
    + intros (b' & [= <-] & E). exact E.
  - split; [discriminate | intros (b & E & _); discriminate].
Qed.

(** ** Filter stage *)

Lemma brand_ok_iff (s : string) (r : option Ref) :
  Str.truthy s && slug_differs r s = false <->
  (s <> "" -> exists b, r = Some b /\ ref_slug b = s).
Proof.
  rewrite andb_false_iff, truthy_empty, slug_differs_false. split.
  - intros [E | E] Hs; [contradiction | exact E].
  - intros Hs. destruct (String.eqb_spec s ""); [left | right]; auto.
Qed.

Lemma keep_product_spec (f : Filters) (p : Product) :
  keep_product f p = true <-> FilterSpec.satisfies f p.
Proof.
  unfold keep_product, FilterSpec.satisfies, FilterSpec.brand_ok,
    FilterSpec.category_ok, FilterSpec.price_ok, FilterSpec.stock_ok.
  rewrite <- !brand_ok_iff.
  destruct (Str.truthy (f_brand f) && slug_differs (brand p) (f_brand f));
    [split; [discriminate | intros (_ & [=] & _)] |].
  destruct (Str.truthy (f_category f) && slug_differs (category p) (f_category f));
    [split; [discriminate | intros (_ & _ & [=] & _)] |].
  cbv zeta.
  destruct (Qltb (parseFloat_or0 (price p)) (f_minPrice f)) eqn:Hmin.
  { apply Qltb_lt in Hmin. split; [discriminate |].
    intros (_ & _ & _ & [Hle _] & _). exfalso. revert Hle. apply Qlt_not_le, Hmin. }
  apply Qltb_ge in Hmin.
  destruct (gt_bound (parseFloat_or0 (price p)) (f_maxPrice f)) eqn:Hmax.
  { split; [discriminate |]. intros (_ & _ & _ & [_ Hle] & _). exfalso.
    destruct (f_maxPrice f); simpl in Hmax; [| discriminate].
    apply Qltb_lt in Hmax. revert Hle. apply Qlt_not_le, Hmax. }
  assert (Hhi : match f_maxPrice f with
                | Finite hi => (parseFloat_or0 (price p) <= hi)%Q
                | Infinity => True
                end).
  { destruct (f_maxPrice f); simpl in Hmax; [apply Qltb_ge, Hmax | exact I]. }
  destruct (f_inStock f) eqn:Hin; simpl.
  - destruct (Z.leb_spec (stock_quantity p) 0) as [Hs | Hs].
    + split; [discriminate |]. intros (_ & _ & _ & _ & H). specialize (H eq_refl). lia.
    + destruct (String.eqb_spec (status p) "active") as [Hst | Hst]; simpl.
      * split; [| reflexivity]. intros _. repeat split; auto. lia.
      * split; [discriminate | intros (H & _); contradiction].
  - destruct (String.eqb_spec (status p) "active") as [Hst | Hst]; simpl.
    + split; [| reflexivity]. intros _. repeat split; auto. discriminate.
    + split; [discriminate | intros (H & _); contradiction].
Qed.

(** C9. The filter stage returns exactly the candidates that satisfy all of:
    status active, brand and category matching when specified, price within
    the inclusive range, stock positive when in-stock-only is requested.  It
    keeps their order, and where no candidate qualifies it returns the empty
    list. *)
Theorem applyBasicFilters_exact (products : list Product) (f : Filters) :
  (exists keep : Product -> bool,
      applyBasicFilters products f = List.filter keep products /\
      forall p, keep p = true <-> FilterSpec.satisfies f p) /\
  (forall p, In p (applyBasicFilters products f) <->
             In p products /\ FilterSpec.satisfies f p) /\
  (applyBasicFilters products f = [] <->
   forall p, In p products -> ~ FilterSpec.satisfies f p).
Proof.
  split; [| split].
  - exists (keep_product f). split; [reflexivity | apply keep_product_spec].
  - intros p. unfold applyBasicFilters.
    rewrite List.filter_In, keep_product_spec. reflexivity.
  - unfold applyBasicFilters. split.
    + intros Hnil p Hin Hsat. apply keep_product_spec in Hsat.
      assert (Hp : In p (List.filter (keep_product f) products))
        by (apply List.filter_In; auto).
      rewrite Hnil in Hp. destruct Hp.
    + intros Hnone. induction products as [| p ps IH]; [reflexivity |].
      simpl. destruct (keep_product f p) eqn:Hk.
      * apply keep_product_spec in Hk. exfalso. apply (Hnone p); simpl; auto.
      * apply IH. intros q Hq. apply Hnone. simpl; auto.
Qed.

(** ** Insertion-ordered maps *)

Lemma JsMap_get_set_eq {V} (k : string) (v : V) (m : JsMap.t V) :
  JsMap.get k (JsMap.set k v m) = Some v.
Proof.
  induction m as [| [k' v'] m IH]; simpl.
  - rewrite String.eqb_refl. reflexivity.
  - destruct (String.eqb_spec k' k) as [-> | Hne]; simpl.
    + rewrite String.eqb_refl. reflexivity.
    + destruct (String.eqb_spec k' k); [contradiction | exact IH].
Qed.

Lemma JsMap_get_set_ne {V} (k k' : string) (v : V) (m : JsMap.t V) :
  k <> k' -> JsMap.get k' (JsMap.set k v m) = JsMap.get k' m.
Proof.
  intros Hne. induction m as [| [k0 v0] m IH]; simpl.
  - destruct (String.eqb_spec k k'); [contradiction | reflexivity].
  - destruct (String.eqb_spec k0 k) as [-> | Hk]; simpl.
    + destruct (String.eqb_spec k k'); [contradiction | reflexivity].
    + rewrite IH. reflexivity.
Qed.

Lemma JsMap_get_None_keys {V} (k : string) (m : JsMap.t V) :
  JsMap.get k m = None <-> ~ In k (List.map fst m).
Proof.
  induction m as [| [k' v'] m IH]; simpl.
  - split; [intros _ [] | reflexivity].
  - destruct (String.eqb_spec k' k) as [-> | Hne].
    + split; [discriminate | intros H; exfalso; apply H; auto].
    + rewrite IH. split; [intros H [E | Hin]; auto | intros H Hin; apply H; auto].
Qed.

Lemma JsMap_keys_set {V} (k : string) (v : V) (m : JsMap.t V) :
  List.map fst (JsMap.set k v m) =
  if JsMap.has k m then List.map fst m else List.map fst m ++ [k].
Proof.
  unfold JsMap.has. induction m as [| [k' v'] m IH]; simpl; [reflexivity |].
  destruct (String.eqb_spec k' k) as [-> | Hne]; simpl; [reflexivity |].
  rewrite IH. destruct (JsMap.get k m); reflexivity.
Qed.

Lemma JsMap_NoDup_set {V} (k : string) (v : V) (m : JsMap.t V) :
  NoDup (List.map fst m) -> NoDup (List.map fst (JsMap.set k v m)).
Proof.
  intros Hnd. rewrite JsMap_keys_set. unfold JsMap.has.
  destruct (JsMap.get k m) eqn:Hg; [exact Hnd |].
  apply JsMap_get_None_keys in Hg.
  apply NoDup_app. split; [exact Hnd |]. split.
  - intros x Hx Hin. apply list_elem_of_In in Hx.
    apply list_elem_of_In in Hin. simpl in Hin. destruct Hin as [<- | []].
    contradiction.
  - apply NoDup_singleton.
Qed.

(** With distinct keys, each keyed by the product it holds, the values for
    one product are the single value stored under its key. *)
Lemma candidates_values (k : string) (m : JsMap.t MatchRecord) :
  NoDup (List.map fst m) ->
  (forall k' v, In (k', v) m -> id (item v) = k') ->
  candidates k (JsMap.values m) =
  match JsMap.get k m with Some v => [v] | None => [] end.
Proof.
  unfold candidates, JsMap.values.
  induction m as [| [k' v'] m IH]; simpl; intros Hnd Hkey; [reflexivity |].
  apply NoDup_cons in Hnd as [Hnotin Hnd].
  assert (Hk' : id (item v') = k') by (apply Hkey; auto).
  rewrite Hk'. rewrite IH by (auto; intros; apply Hkey; auto).
  destruct (String.eqb_spec k' k) as [-> | Hne]; [| reflexivity].
  assert (Hg : JsMap.get k m = None).
  { apply JsMap_get_None_keys. intros Hin. apply Hnotin.
    apply list_elem_of_In. exact Hin. }
  rewrite Hg. reflexivity.
Qed.

Lemma JsMap_get_In {V} (k : string) (v : V) (m : JsMap.t V) :
  NoDup (List.map fst m) -> In (k, v) m -> JsMap.get k m = Some v.
Proof.
  induction m as [| [k' v'] m IH]; simpl; intros Hnd Hin; [destruct Hin |].
  apply NoDup_cons in Hnd as [Hnotin Hnd].
  destruct Hin as [[= -> ->] | Hin].
  - rewrite String.eqb_refl. reflexivity.
  - destruct (String.eqb_spec k' k) as [-> | Hne]; [| auto].
    exfalso. apply Hnotin. apply list_elem_of_In.
    apply (List.in_map fst) in Hin. exact Hin.
Qed.

(** ** Merge stage *)

Lemma with_score_same (r : MatchRecord) : with_score r (score r) = r.
Proof. destruct r; reflexivity. Qed.

Lemma candidates_app (k : string) (l1 l2 : list MatchRecord) :
  candidates k (l1 ++ l2) = candidates k l1 ++ candidates k l2.
Proof. apply List.filter_app. Qed.

Lemma candidates_id (k : string) (rs : list MatchRecord) (r : MatchRecord) :
  In r (candidates k rs) -> id (item r) = k.
Proof.
  unfold candidates. rewrite List.filter_In. intros [_ H].
  apply String.eqb_eq. exact H.
Qed.

Lemma best_score_snoc (s0 : Q) (later : list MatchRecord) (r : MatchRecord) :
  best_score s0 (later ++ [r]) = Qmax (best_score s0 later) (score r).
Proof. unfold best_score. rewrite List.fold_left_app. reflexivity. Qed.

Lemma Qmax_cases (a b : Q) : Qmax a b = a \/ Qmax a b = b.
Proof.
  unfold Qmax, GenericMinMax.gmax. destruct (a ?= b)%Q; auto.
Qed.

(** The running maximum bounds every candidate score and is one of them. *)
Lemma best_score_max (s0 : Q) (later : list MatchRecord) :
  (s0 <= best_score s0 later)%Q /\
  (forall c, In c later -> (score c <= best_score s0 later)%Q) /\
  (best_score s0 later = s0 \/
   exists c, In c later /\ best_score s0 later = score c).
Proof.
  induction later as [| r later IH] using List.rev_ind.
  - simpl. split; [apply Qle_refl |]. split; [intros c [] | auto].
  - rewrite best_score_snoc. destruct IH as (Hlo & Hall & Hone).
    split; [| split].
    + eapply Qle_trans; [exact Hlo | apply Q.le_max_l].
    + intros c Hc. apply List.in_app_or in Hc as [Hc | [<- | []]].
      * eapply Qle_trans; [apply Hall, Hc | apply Q.le_max_l].
      * apply Q.le_max_r.
    + destruct (Qmax_cases (best_score s0 later) (score r)) as [-> | ->].
      * destruct Hone as [E | (c & Hc & E)]; [auto |].
        right. exists c. split; [apply List.in_or_app; auto | exact E].
      * right. exists r. split; [apply List.in_or_app; simpl; auto | reflexivity].
Qed.

Lemma merge_inv_empty : merge_inv JsMap.empty [].
Proof. split; [reflexivity | apply NoDup_nil_2]. Qed.

Lemma merged_of_snoc_other (k : string) (seen : list MatchRecord) (r : MatchRecord) :
  id (item r) <> k -> merged_of k (seen ++ [r]) = merged_of k seen.
Proof.
  intros Hne. unfold merged_of. rewrite candidates_app. simpl.
  destruct (String.eqb_spec (id (item r)) k); [contradiction |].
  rewrite List.app_nil_r. reflexivity.
Qed.

Lemma merged_of_snoc_same (seen : list MatchRecord) (r : MatchRecord) :
  merged_of (id (item r)) (seen ++ [r]) =
  match merged_of (id (item r)) seen with
  | Some existing => Some (with_score existing (Qmax (score existing) (score r)))
  | None => Some r
  end.
Proof.
  unfold merged_of. rewrite candidates_app. simpl.
  rewrite String.eqb_refl.
  destruct (candidates (id (item r)) seen) as [| first later]; simpl.
  - rewrite with_score_same. reflexivity.
  - rewrite best_score_snoc. reflexivity.
Qed.

Lemma merge_inv_step (m : JsMap.t MatchRecord) (seen : list MatchRecord)
    (r : MatchRecord) :
  merge_inv m seen -> merge_inv (combine_step m r) (seen ++ [r]).
Proof.
  intros [Hget Hkeys]. unfold combine_step. split.
  - intros k. destruct (String.eqb_spec (id (item r)) k) as [<- | Hne].
    + rewrite merged_of_snoc_same, <- Hget.
      destruct (JsMap.get (id (item r)) m); apply JsMap_get_set_eq.
    + rewrite merged_of_snoc_other by exact Hne. rewrite <- Hget.
      destruct (JsMap.get (id (item r)) m); apply JsMap_get_set_ne; exact Hne.
  - destruct (JsMap.get (id (item r)) m); apply JsMap_NoDup_set; exact Hkeys.
Qed.

Lemma merge_inv_fold (rs : list MatchRecord) :
  forall m seen, merge_inv m seen ->
  merge_inv (List.fold_left combine_step rs m) (seen ++ rs).
Proof.
  induction rs as [| r rs IH]; intros m seen Hinv; simpl.
  - rewrite List.app_nil_r. exact Hinv.
  - replace (seen ++ r :: rs) with ((seen ++ [r]) ++ rs)
      by (rewrite <- List.app_assoc; reflexivity).
    apply IH, merge_inv_step, Hinv.
Qed.

Lemma merge_inv_entry (m : JsMap.t MatchRecord) (seen : list MatchRecord)
    (k : string) (v : MatchRecord) :
  merge_inv m seen -> In (k, v) m -> id (item v) = k.
Proof.
  intros [Hget Hkeys] Hin. apply JsMap_get_In in Hin; [| exact Hkeys].
  rewrite Hget in Hin. unfold merged_of in Hin.
  destruct (candidates k seen) as [| first later] eqn:Hc; [discriminate |].
  injection Hin as <-. simpl.
  apply (candidates_id k seen). rewrite Hc. simpl; auto.
Qed.

Lemma combine_three (a b c : list MatchRecord) :
  combineSearchResults [a; b; c] =
  JsMap.values (List.fold_left combine_step (a ++ b ++ c) JsMap.empty).
Proof.
  unfold combineSearchResults. simpl. rewrite !List.fold_left_app. reflexivity.
Qed.

(** The merged list holds, for each product, the one record [merged_of]
    describes. *)
Lemma combine_candidates (a b c : list MatchRecord) (k : string) :
  candidates k (combineSearchResults [a; b; c]) =
  match merged_of k (a ++ b ++ c) with Some v => [v] | None => [] end.
Proof.
  rewrite combine_three.
  pose proof (merge_inv_fold (a ++ b ++ c) JsMap.empty [] merge_inv_empty) as Hinv.
  simpl in Hinv.
  rewrite candidates_values.
  - rewrite (inv_get _ _ Hinv). reflexivity.
  - apply (inv_keys _ _ Hinv).
  - intros k' v. apply (merge_inv_entry _ _ _ _ Hinv).
Qed.

(** C10. For a product found by any of the matchers, the merged list holds
    exactly one record: the first record for that product in the order
    fuzzy, exact, partial, whose item, match explanations, algorithm tag and
    reference index are unchanged and whose score is the maximum of the
    scores of all the records for that product. *)
Theorem performTextSearch_keeps_first_record `{Externals}
    (products : list Product) (q : string) (r : MatchRecord) :
  let sp := List.map searchable products in
  let found := fuzzySearch sp q ++ findExactMatches sp q ++ findPartialMatches sp q in
  In r found ->
  exists first later merged,
    candidates (id (item r)) found = first :: later /\
    candidates (id (item r)) (performTextSearch products q) = [merged] /\
    merged = with_score first (best_score (score first) later) /\
    item merged = item first /\
    matches merged = matches first /\
    algorithm merged = algorithm first /\
    refIndex merged = refIndex first /\
    (forall c, In c (first :: later) -> (score c <= score merged)%Q) /\
    (exists c, In c (first :: later) /\ score merged = score c).
Proof.
  intros sp found Hin.
  assert (Hcand : In r (candidates (id (item r)) found)).
  { unfold candidates. apply List.filter_In. split; [exact Hin |].
    apply String.eqb_refl. }
  destruct (candidates (id (item r)) found) as [| first later] eqn:Hc;
    [destruct Hcand |].
  exists first, later, (with_score first (best_score (score first) later)).
  split; [reflexivity |]. split.
  { unfold performTextSearch. fold sp. rewrite combine_candidates.
    fold found. unfold merged_of. rewrite Hc. reflexivity. }
  split; [reflexivity |]. repeat (split; [reflexivity |]). simpl.
  destruct (best_score_max (score first) later) as (Hlo & Hall & Hone).
  split.
  - intros c [<- | Hc']; [exact Hlo | apply Hall, Hc'].
  - destruct Hone as [E | (c & Hc' & E)].
    + exists first. split; [simpl; auto | exact E].
    + exists c. split; [simpl; auto | exact E].
Qed.

Lemma performTextSearch_keeps_first_record_witness :
  exists first later merged,
    candidates "p1"
      (@fuzzySearch (Sample.world_of [] [Sample.fuseHit] 1)
         [searchable Sample.pixel8] "pixel"
       ++ findExactMatches [searchable Sample.pixel8] "pixel"
       ++ findPartialMatches [searchable Sample.pixel8] "pixel")
    = first :: later /\
    candidates "p1"
      (@performTextSearch (Sample.world_of [] [Sample.fuseHit] 1)
         [Sample.pixel8] "pixel") = [merged] /\
    merged = with_score first (best_score (score first) later) /\
    item merged = item first /\
    matches merged = matches first /\
    algorithm merged = algorithm first /\
    refIndex merged = refIndex first /\
    (forall c, In c (first :: later) -> (score c <= score merged)%Q) /\
    (exists c, In c (first :: later) /\ score merged = score c).
Proof.
  apply (@performTextSearch_keeps_first_record
           (Sample.world_of [] [Sample.fuseHit] 1) [Sample.pixel8] "pixel"
           (fuzzy_record Sample.fuseHit)).
  simpl. left. reflexivity.
Defined.

(** ** Sorting and slicing keep to their input *)

Lemma sort_insert_perm {A} (cmp : A -> A -> Q) (x : A) (l : list A) :
  Permutation (sort_insert cmp x l) (x :: l).
Proof.
  induction l as [| y l IH]; simpl; [reflexivity |].
  destruct (Qltb 0 (cmp x y)); [| reflexivity].
  rewrite IH. apply perm_swap.
Qed.

Lemma js_sort_perm {A} (cmp : A -> A -> Q) (l : list A) :
  Permutation (js_sort cmp l) l.
Proof.
  induction l as [| x l IH]; simpl; [reflexivity |].
  rewrite sort_insert_perm, IH. reflexivity.
Qed.

Lemma js_sort_length {A} (cmp : A -> A -> Q) (l : list A) :
  length (js_sort cmp l) = length l.
Proof. apply Permutation_length, js_sort_perm. Qed.

Lemma js_sort_In {A} (cmp : A -> A -> Q) (l : list A) (x : A) :
  In x (js_sort cmp l) <-> In x l.
Proof.
  split; apply Permutation_in; [| symmetry]; apply js_sort_perm.
Qed.

Lemma js_slice_In {A} (l : list A) (start stop : Z) (x : A) :
  In x (js_slice l start stop) -> In x l.
Proof.
  unfold js_slice. intros Hin.
  apply list_elem_of_In in Hin. apply list_elem_of_In.
  eapply subseteq_drop, subseteq_take, Hin.
Qed.

(** ** Score bounds *)

Lemma capped_in_unit_interval (s : Q) :
  (0 <= s)%Q -> unit_interval (Qmin s 1).
Proof.
  intros Hs. split; [apply Q.min_glb; [exact Hs | discriminate] | apply Q.le_min_r].
Qed.

Lemma findExactMatches_bounded (products : list Product) (q : string)
    (r : MatchRecord) :
  In r (findExactMatches products q) -> unit_interval (score r).
Proof.
  unfold findExactMatches. rewrite List.in_flat_map. intros (p & _ & Hin).
  destruct (exact_score p (Str.toLowerCase q)) as [s ms].
  destruct (Qltb 0 s) eqn:Hpos; [| destruct Hin].
  destruct Hin as [<- | []]. simpl.
  apply capped_in_unit_interval, Qlt_le_weak, Qltb_lt, Hpos.
Qed.

Lemma findPartialMatches_bounded (products : list Product) (q : string)
    (r : MatchRecord) :
  In r (findPartialMatches products q) -> unit_interval (score r).
Proof.
  unfold findPartialMatches. rewrite List.in_flat_map. intros (p & _ & Hin).
  destruct (List.fold_left (partial_word p) (Str.split_ws (Str.toLowerCase q))
              (0%Q, [])) as [s ms].
  destruct (Qltb 0 s) eqn:Hpos; [| destruct Hin].
  destruct Hin as [<- | []]. simpl.
  apply capped_in_unit_interval, Qlt_le_weak, Qltb_lt, Hpos.
Qed.

Lemma fuzzySearch_bounded `{Externals} (products : list Product) (q : string)
    (r : MatchRecord) :
  fuse_scores_normalized ->
  In r (fuzzySearch products q) -> unit_interval (score r).
Proof.
  intros Hfuse. unfold fuzzySearch. rewrite List.in_map_iff.
  intros (fr & <- & Hin). simpl. eapply Hfuse, Hin.
Qed.

(** The merge invents no score: a merged score is the score of one of the
    records that were merged. *)
Lemma combine_score_from_input (a b c : list MatchRecord) (m : MatchRecord) :
  In m (combineSearchResults [a; b; c]) ->
  exists r, In r (a ++ b ++ c) /\ score m = score r.
Proof.
  intros Hin.
  assert (Hc : In m (candidates (id (item m)) (combineSearchResults [a; b; c]))).
  { unfold candidates. apply List.filter_In. split; [exact Hin |].
    apply String.eqb_refl. }
  rewrite combine_candidates in Hc. unfold merged_of in Hc.
  destruct (candidates (id (item m)) (a ++ b ++ c)) as [| first later] eqn:Hcand;
    [destruct Hc |].
  destruct Hc as [<- | []]. simpl.
  assert (Hsub : forall x, In x (first :: later) -> In x (a ++ b ++ c)).
  { intros x Hx. rewrite <- Hcand in Hx. unfold candidates in Hx.
    apply List.filter_In in Hx. tauto. }
  destruct (best_score_max (score first) later) as (_ & _ & [E | (x & Hx & E)]).
  - exists first. split; [apply Hsub; simpl; auto | exact E].
  - exists x. split; [apply Hsub; simpl; auto | exact E].
Qed.

Lemma performTextSearch_bounded `{Externals} (products : list Product)
    (q : string) (m : MatchRecord) :
  fuse_scores_normalized ->
  In m (performTextSearch products q) -> unit_interval (score m).
Proof.
  intros Hfuse Hin. unfold performTextSearch in Hin.
  apply combine_score_from_input in Hin as (r & Hr & ->).
  apply List.in_app_or in Hr as [Hr | Hr];
    [eapply fuzzySearch_bounded; eauto |].
  apply List.in_app_or in Hr as [Hr | Hr].
  - eapply findExactMatches_bounded, Hr.
  - eapply findPartialMatches_bounded, Hr.
Qed.

Lemma boosted_nonneg (r : MatchRecord) : (0 <= score r)%Q -> (0 <= boosted r)%Q.
Proof.
  intros Hs. unfold boosted.
  destruct (is_featured (item r)), (is_bestseller (item r)),
    (opt_gt (average_rating (item r)) 4), (10 <? stock_quantity (item r)),
    (stock_quantity (item r) <=? 0); lra.
Qed.

Lemma applyAdvancedScoring_bounded (rs : list MatchRecord) (m : MatchRecord) :
  (forall r, In r rs -> (0 <= score r)%Q) ->
  In m (applyAdvancedScoring rs) -> unit_interval (score m).
Proof.
  intros Hrs. unfold applyAdvancedScoring. rewrite List.in_map_iff.
  intros (r & <- & Hin). simpl.
  apply capped_in_unit_interval, boosted_nonneg, Hrs, Hin.
Qed.

(** ** The engine's entry point, step by step *)

(** The state after a run of [search]: two clock readings, one counted query *)
Lemma search_world `{Externals} (products : list Product) (params : SearchParams)
    (w : World) :
  snd (search products params w) =
  {| searchCache := searchCache w;
     popularSearches :=
       popularSearches
         (snd (logSearchAnalytics (default "" (query params)) 0 w));
     ticks := S (S (ticks w)) |}.
Proof.
  unfold search, mbind, M_bind, mret, M_ret, Date_now, logSearchAnalytics.
  unfold tick. simpl.
  destruct (Str.truthy (default "" (query params))); reflexivity.
Qed.

Lemma search_results `{Externals} (products : list Product) (params : SearchParams)
    (w : World) :
  results (fst (search products params w)) =
  List.map to_result_item
    (js_slice (rankedResults products params) (default 0 (offset params))
       (default 0 (offset params) + default 50 (limit params))).
Proof.
  unfold search, mbind, M_bind, mret, M_ret, Date_now, logSearchAnalytics.
  simpl. destruct (Str.truthy (default "" (query params))); reflexivity.
Qed.

Lemma search_metadata `{Externals} (products : list Product) (params : SearchParams)
    (w : World) :
  let md := metadata (fst (search products params w)) in
  let lim := default 50 (limit params) in
  let off := default 0 (offset params) in
  total md = Z.of_nat (length (rankedResults products params)) /\
  m_limit md = lim /\ m_offset md = off /\
  hasNext md = (off + lim <? total md) /\
  hasPrev md = (0 <? off).
Proof.
  unfold search, mbind, M_bind, mret, M_ret, Date_now, logSearchAnalytics.
  simpl. destruct (Str.truthy (default "" (query params))); simpl; auto.
Qed.

Lemma rankedResults_bounded `{Externals} (products : list Product)
    (params : SearchParams) (m : MatchRecord) :
  fuse_scores_normalized ->
  In m (rankedResults products params) -> unit_interval (score m).
Proof.
  intros Hfuse. unfold rankedResults, sortResults. rewrite js_sort_In.
  apply applyAdvancedScoring_bounded. intros r Hr.
  destruct (Str.truthy (default "" (query params))
            && (0 <? String.length (Str.trim (default "" (query params))))%nat).
  - eapply performTextSearch_bounded; eauto.
  - apply List.in_map_iff in Hr as (p & <- & _). simpl. discriminate.
Qed.

Lemma search_scores_bounded `{Externals} (products : list Product)
    (params : SearchParams) (w : World) :
  fuse_scores_normalized ->
  scores_bounded (fst (search products params w)).
Proof.
  intros Hfuse it. rewrite search_results, List.in_map_iff.
  intros (m & <- & Hin). simpl. apply js_slice_In in Hin.
  eapply rankedResults_bounded; eauto.
Qed.

(** ** Result cache *)

Lemma getFromCache_miss `{Externals} (key : string) (w : World) :
  searchCache w !! key = None -> getFromCache key w = (None, w).
Proof. intros Hk. unfold getFromCache. rewrite Hk. reflexivity. Qed.

Lemma getFromCache_live `{Externals} (key : string) (w : World) (e : CacheEntry) :
  searchCache w !! key = Some e ->
  clock (ticks w) <= expiry e ->
  getFromCache key w = (Some (data e), tick w).
Proof.
  intros Hk Hlive. unfold getFromCache, Date_now. rewrite Hk.
  destruct (Z.ltb_spec (expiry e) (clock (ticks w))); [lia | reflexivity].
Qed.

Lemma getFromCache_stale `{Externals} (key : string) (w : World) (e : CacheEntry) :
  searchCache w !! key = Some e ->
  expiry e < clock (ticks w) ->
  getFromCache key w =
  (None, with_cache (delete key (searchCache w)) (tick w)).
Proof.
  intros Hk Hstale. unfold getFromCache, Date_now. rewrite Hk.
  destruct (Z.ltb_spec (expiry e) (clock (ticks w))); [reflexivity | lia].
Qed.

(** The cache after a lookup holds no entry that was not there before. *)
Lemma getFromCache_cache `{Externals} (key : string) (w : World) (k : string)
    (e : CacheEntry) :
  searchCache (snd (getFromCache key w)) !! k = Some e ->
  searchCache w !! k = Some e.
Proof.
  unfold getFromCache, Date_now.
  destruct (searchCache w !! key) as [c |] eqn:Hk; [| auto].
  destruct (expiry c <? clock (ticks w)); simpl; [| auto].
  rewrite lookup_delete_Some. tauto.
Qed.

Lemma getFromCache_data `{Externals} (key : string) (w : World) (r : SearchResult) :
  fst (getFromCache key w) = Some r ->
  exists e, searchCache w !! key = Some e /\ data e = r.
Proof.
  unfold getFromCache, Date_now.
  destruct (searchCache w !! key) as [c |] eqn:Hk; [| discriminate].
  destruct (expiry c <? clock (ticks w)); simpl; [discriminate |].
  intros [= <-]. eauto.
Qed.

(** [setCache] stores the entry with an expiry one TTL after a reading of
    the clock taken during the call, and otherwise only drops entries. *)
Lemma setCache_stored `{Externals} (key : string) (d : SearchResult) (w : World) :
  exists n : nat,
    (ticks w <= n < ticks (snd (setCache key d w)))%nat /\
    searchCache (snd (setCache key d w)) !! key =
    Some {| data := d; expiry := clock n + cacheExpiry |}.
Proof.
  unfold setCache, clearExpiredCache, Date_now.
  destruct (100 <? size (searchCache w))%nat; simpl.
  - exists (S (ticks w)). split; [lia | apply lookup_insert_eq].
  - exists (ticks w). split; [lia | apply lookup_insert_eq].
Qed.

Lemma setCache_others `{Externals} (key : string) (d : SearchResult) (w : World)
    (k : string) (e : CacheEntry) :
  searchCache (snd (setCache key d w)) !! k = Some e ->
  (k = key /\ data e = d) \/ searchCache w !! k = Some e.
Proof.
  unfold setCache, clearExpiredCache, Date_now.
  destruct (100 <? size (searchCache w))%nat; simpl;
    rewrite lookup_insert_Some; intros [[<- <-] | [_ Hk]]; auto.
  apply map_lookup_filter_Some in Hk as [Hk _]. auto.
Qed.

Lemma setCache_popular `{Externals} (key : string) (d : SearchResult) (w : World) :
  popularSearches (snd (setCache key d w)) = popularSearches w.
Proof.
  unfold setCache, clearExpiredCache, Date_now.
  destruct (100 <? size (searchCache w))%nat; reflexivity.
Qed.

Lemma setCache_bounded `{Externals} (key : string) (d : SearchResult) (w : World) :
  cache_bounded w -> scores_bounded d ->
  cache_bounded (snd (setCache key d w)).
Proof.
  intros Hw Hd k e Hk. apply setCache_others in Hk as [[_ ->] | Hk]; eauto.
Qed.

Lemma enhance_bounded (r : SearchResult) :
  scores_bounded r -> scores_bounded (enhanceSearchResults r).
Proof.
  intros Hr it. unfold enhanceSearchResults. simpl. rewrite List.in_map_iff.
  intros (it0 & <- & Hin). simpl. apply Hr, Hin.
Qed.

Lemma cache_bounded_ext (w w' : World) :
  searchCache w' = searchCache w -> cache_bounded w -> cache_bounded w'.
Proof. unfold cache_bounded. intros ->. auto. Qed.

Lemma computeAndCache_bounded `{Externals} (params : SearchParams)
    (startTime : Z) (key : string) (w : World) :
  fuse_scores_normalized -> cache_bounded w ->
  cache_bounded (snd (computeAndCache params startTime key w)) /\
  (forall r, fst (computeAndCache params startTime key w) = Returned r ->
             scores_bounded r).
Proof.
  intros Hfuse Hw. unfold computeAndCache.
  destruct (getProductsForSearch params) as [[| p ps] |].
  - unfold mbind, M_bind, mret, M_ret, Date_now.
    destruct (setCache key _ (tick w)) as [[] w2] eqn:Hset. simpl.
    assert (Hempty : scores_bounded
                       (emptyResult params startTime (clock (ticks w))))
      by (intros it []).
    split.
    + replace w2 with (snd (setCache key
        (emptyResult params startTime (clock (ticks w))) (tick w)))
        by (rewrite Hset; reflexivity).
      apply setCache_bounded; [exact Hw | exact Hempty].
    + intros r [= <-]. exact Hempty.
  - unfold mbind, M_bind, mret, M_ret.
    destruct (search (p :: ps) params w) as [sr w1] eqn:Hsearch.
    assert (Hsr : scores_bounded sr).
    { replace sr with (fst (search (p :: ps) params w))
        by (rewrite Hsearch; reflexivity).
      apply search_scores_bounded, Hfuse. }
    assert (Hw1 : cache_bounded w1).
    { apply (cache_bounded_ext w); [| exact Hw].
      replace w1 with (snd (search (p :: ps) params w))
        by (rewrite Hsearch; reflexivity).
      rewrite search_world. reflexivity. }
    destruct (setCache key (enhanceSearchResults sr) w1) as [[] w2] eqn:Hset.
    unfold Date_now. simpl. split.
    + apply (cache_bounded_ext w2); [reflexivity |].
      replace w2 with (snd (setCache key (enhanceSearchResults sr) w1))
        by (rewrite Hset; reflexivity).
      apply setCache_bounded; [exact Hw1 | apply enhance_bounded, Hsr].
    + intros r [= <-]. apply enhance_bounded, Hsr.
  - unfold mbind, M_bind, mret, M_ret, Date_now. simpl.
    split; [exact Hw | discriminate].
Qed.

(** C5. With Fuse reporting scores in [0, 1] and a cache that holds only
    results of earlier calls, every item of the result a search call returns,
    computed or served from the cache, carries a final score in [0, 1], and
    the cache keeps holding only such results. *)
Theorem final_scores_in_unit_interval `{Externals} (params : SearchParams)
    (w : World) :
  fuse_scores_normalized -> cache_bounded w ->
  cache_bounded (snd (searchProducts params w)) /\
  (forall r, fst (searchProducts params w) = Returned r -> scores_bounded r).
Proof.
  intros Hfuse Hw. unfold searchProducts, mbind, M_bind, Date_now.
  destruct (getFromCache (generateCacheKey params) (tick w)) as [cached w1] eqn:Hget.
  assert (Hw1 : cache_bounded w1).
  { intros k e Hk. apply (Hw k).
    replace w1 with (snd (getFromCache (generateCacheKey params) (tick w))) in Hk
      by (rewrite Hget; reflexivity).
    apply getFromCache_cache in Hk. exact Hk. }
  destruct cached as [r0 |].
  - simpl. split; [exact Hw1 |]. intros r [= <-].
    destruct (getFromCache_data (generateCacheKey params) (tick w) r0)
      as (e & He & <-); [rewrite Hget; reflexivity |].
    apply (Hw _ _ He).
  - apply computeAndCache_bounded; assumption.
Qed.

Lemma final_scores_in_unit_interval_witness :
  cache_bounded
    (snd (@searchProducts Sample.shop (Sample.byQuery "pixel") Sample.start)) /\
  (forall r,
      fst (@searchProducts Sample.shop (Sample.byQuery "pixel") Sample.start)
      = Returned r ->
      scores_bounded r).
Proof.
  apply (@final_scores_in_unit_interval Sample.shop (Sample.byQuery "pixel")
           Sample.start).
  - intros opts ps q fr [<- | []]. vm_compute. split; discriminate.
  - intros k e Hk. simpl in Hk. rewrite lookup_empty in Hk. discriminate.
Defined.

(** ** Cache expiry *)

(** C7. A lookup that reads the clock after the stored entry's TTL of five
    minutes from its storage has elapsed drops the entry and runs the rest
    of the call as on a miss: the repository is asked again, the result of
    the pipeline is returned and stored under the key with an expiry one TTL
    after a later reading of the clock; where the repository fails, nothing
    is returned and the key stays empty. *)
Theorem stale_entry_is_recomputed `{Externals} (params : SearchParams)
    (w : World) (stale : CacheEntry) (storedAt : Z) :
  let key := generateCacheKey params in
  let w1 := with_cache (delete key (searchCache w)) (tick (tick w)) in
  searchCache w !! key = Some stale ->
  expiry stale = storedAt + 5 * 60 * 1000 ->
  storedAt + 5 * 60 * 1000 < clock (S (ticks w)) ->
  searchProducts params w = computeAndCache params (clock (ticks w)) key w1 /\
  searchCache w1 !! key = None /\
  match getProductsForSearch params with
  | Some products =>
      let fresh :=
        match products with
        | [] => emptyResult params (clock (ticks w)) (clock (ticks w1))
        | _ => enhanceSearchResults (fst (search products params w1))
        end in
      fst (searchProducts params w) = Returned fresh /\
      exists n : nat,
        (ticks w1 <= n)%nat /\
        searchCache (snd (searchProducts params w)) !! key =
        Some {| data := fresh; expiry := clock n + 5 * 60 * 1000 |}
  | None =>
      (exists message, fst (searchProducts params w) = Thrown message) /\
      searchCache (snd (searchProducts params w)) !! key = None
  end.
Proof.
  intros key w1 Hk Hexp Hlate.
  assert (Hrun : searchProducts params w
                 = computeAndCache params (clock (ticks w)) key w1).
  { unfold searchProducts, mbind, M_bind, Date_now. fold key.
    rewrite (getFromCache_stale key (tick w) stale); [reflexivity | exact Hk |].
    simpl. lia. }
  assert (Hgone : searchCache w1 !! key = None) by apply lookup_delete_eq.
  split; [exact Hrun |]. split; [exact Hgone |].
  rewrite Hrun. unfold computeAndCache.
  destruct (getProductsForSearch params) as [[| p ps] |].
  - unfold mbind, M_bind, mret, M_ret, Date_now.
    destruct (setCache_stored key
                (emptyResult params (clock (ticks w)) (clock (ticks w1)))
                (tick w1)) as (n & Hn & Hstored).
    destruct (setCache key _ (tick w1)) as [[] w2]. simpl in *.
    split; [reflexivity |]. exists n. split; [lia | exact Hstored].
  - unfold mbind, M_bind, mret, M_ret.
    pose proof (search_world (p :: ps) params w1) as Hworld.
    destruct (search (p :: ps) params w1) as [sr w2]. simpl in Hworld.
    destruct (setCache_stored key (enhanceSearchResults sr) w2)
      as (n & Hn & Hstored).
    destruct (setCache key (enhanceSearchResults sr) w2) as [[] w3].
    unfold Date_now. simpl in *.
    split; [reflexivity |]. exists n. split; [| exact Hstored].
    rewrite Hworld in Hn. simpl in Hn. lia.
  - unfold mbind, M_bind, mret, M_ret, Date_now. simpl.
    split; [eauto | exact Hgone].
Qed.

Lemma stale_entry_is_recomputed_witness :
  exists (fresh : SearchResult) (n : nat),
    fst (@searchProducts Sample.slowShop (Sample.byQuery "pixel")
           (snd (@searchProducts Sample.slowShop (Sample.byQuery "pixel")
                   Sample.start)))
    = Returned fresh /\
    searchCache
      (snd (@searchProducts Sample.slowShop (Sample.byQuery "pixel")
              (snd (@searchProducts Sample.slowShop (Sample.byQuery "pixel")
                      Sample.start))))
      !! "pixel|relevance|desc|50|0"
    = Some {| data := fresh; expiry := 240000 * Z.of_nat n + 300000 |}.
Proof.
  pose proof (@stale_entry_is_recomputed Sample.slowShop
                (Sample.byQuery "pixel")
                (snd (@searchProducts Sample.slowShop (Sample.byQuery "pixel")
                        Sample.start))
                {| data :=
                     enhanceSearchResults
                       (fst (@search Sample.slowShop
                               [Sample.pixel8; Sample.pixel7; Sample.soldOut]
                               (Sample.byQuery "pixel") (tick Sample.start)));
                   expiry := 1020000 |}
                720000) as T.
  cbv zeta in T.
  specialize (T ltac:(vm_compute; reflexivity) ltac:(vm_compute; reflexivity)
                ltac:(vm_compute; reflexivity)).
  destruct T as (_ & _ & T).
  change (@getProductsForSearch Sample.slowShop (Sample.byQuery "pixel"))
    with (Some [Sample.pixel8; Sample.pixel7; Sample.soldOut]) in T.
  cbv zeta in T. destruct T as (Hret & n & _ & Hstored).
  eexists _, n. split; [exact Hret | exact Hstored].
Defined.

(** ** Pagination *)

Lemma js_slice_length {A} (l : list A) (off lim : Z) :
  0 <= off -> 0 <= lim ->
  Z.of_nat (length (js_slice l off (off + lim))) =
  if Z.of_nat (length l) <=? off then 0
  else Z.min lim (Z.of_nat (length l) - off).
Proof.
  intros Hoff Hlim. unfold js_slice, slice_index.
  rewrite List.length_firstn, List.length_skipn.
  destruct (Z.ltb_spec off 0); [lia |].
  destruct (Z.ltb_spec (off + lim) 0); [lia |].
  destruct (Z.leb_spec (Z.of_nat (length l)) off); lia.
Qed.

(** X13. On the engine's own path the page flags and the page length agree
    with the window, for a limit of at least 1 and an offset of at least 0:
    [hasNext] is [offset + limit < total], [hasPrev] is [offset > 0], and
    the page holds the smaller of [limit] and [total - offset] results, none
    where the offset reaches the total. *)
Lemma search_pagination_consistent `{Externals} (products : list Product)
    (params : SearchParams) (w : World) :
  let r := fst (search products params w) in
  let md := metadata r in
  0 <= default 0 (offset params) -> 1 <= default 50 (limit params) ->
  hasNext md = (m_offset md + m_limit md <? total md) /\
  hasPrev md = (0 <? m_offset md) /\
  Z.of_nat (length (results r)) =
  if total md <=? m_offset md then 0
  else Z.min (m_limit md) (total md - m_offset md).
Proof.
  intros r md Hoff Hlim.
  destruct (search_metadata products params w)
    as (Htotal & Hl & Ho & Hnext & Hprev).
  fold r in Htotal, Hl, Ho, Hnext, Hprev. fold md in Htotal, Hl, Ho, Hnext, Hprev.
  cbv zeta in *. rewrite Hl, Ho, Hnext, Hprev.
  split; [reflexivity |]. split; [reflexivity |].
  unfold r. rewrite search_results, List.length_map, js_slice_length by lia.
  rewrite Htotal. reflexivity.
Qed.

(** C6. On the short-circuit for an empty candidate list the response has no
    result and a total of 0, but reports no previous page whatever the
    offset: for a positive offset [hasPrev] differs from [offset > 0], while
    the engine's own path, given the same empty candidate list, reports a
    previous page. *)
Theorem empty_candidates_response_has_no_previous_page `{Externals}
    (params : SearchParams) (w : World) (off : Z) :
  searchCache w !! generateCacheKey params = None ->
  getProductsForSearch params = Some [] ->
  offset params = Some off -> 0 < off ->
  exists r,
    fst (searchProducts params w) = Returned r /\
    results r = [] /\
    total (metadata r) = 0 /\
    m_offset (metadata r) = off /\
    hasNext (metadata r) = false /\
    hasPrev (metadata r) = false /\
    hasPrev (metadata r) <> (0 <? m_offset (metadata r)) /\
    hasPrev (metadata (fst (search [] params w))) = true.
Proof.
  intros Hmiss Hrepo Hoff Hpos.
  exists (emptyResult params (clock (ticks w)) (clock (S (ticks w)))).
  assert (Hm : m_offset (metadata (emptyResult params (clock (ticks w))
                                     (clock (S (ticks w))))) = off).
  { simpl. rewrite Hoff. simpl. destruct (Z.eqb_spec off 0); [lia | reflexivity]. }
  split.
  { unfold searchProducts, mbind, M_bind, Date_now.
    rewrite getFromCache_miss by exact Hmiss.
    unfold computeAndCache. rewrite Hrepo.
    unfold mbind, M_bind, mret, M_ret, Date_now.
    destruct (setCache _ _ _) as [[] w2]. reflexivity. }
  split; [reflexivity |]. split; [reflexivity |]. split; [exact Hm |].
  split; [reflexivity |]. split; [reflexivity |]. split.
  - rewrite Hm. simpl. destruct (Z.ltb_spec 0 off); [discriminate | lia].
  - destruct (search_metadata [] params w) as (_ & _ & _ & _ & ->).
    rewrite Hoff. simpl. apply Z.ltb_lt, Hpos.
Qed.

Lemma empty_candidates_response_has_no_previous_page_witness :
  exists r,
    fst (@searchProducts Sample.emptyShop (Sample.window None (Some 10))
           Sample.start) = Returned r /\
    results r = [] /\
    total (metadata r) = 0 /\
    m_offset (metadata r) = 10 /\
    hasNext (metadata r) = false /\
    hasPrev (metadata r) = false /\
    hasPrev (metadata r) <> (0 <? m_offset (metadata r)) /\
    hasPrev (metadata (fst (@search Sample.emptyShop []
                              (Sample.window None (Some 10)) Sample.start)))
    = true.
Proof.
  apply (@empty_candidates_response_has_no_previous_page Sample.emptyShop
           (Sample.window None (Some 10)) Sample.start 10);
    [vm_compute; reflexivity | reflexivity | reflexivity | lia].
Defined.

(** ** The page window of a request *)

Lemma check_nil {A} (value : option A) (ok : A -> bool) (message : string) :
  check value ok message = [] <-> forall v, value = Some v -> ok v = true.
Proof.
  unfold check. destruct value as [v |].
  - destruct (ok v) eqn:Hok; split.
    + intros _ v' [= <-]. exact Hok.
    + reflexivity.
    + discriminate.
    + intros Hv. specialize (Hv v eq_refl). congruence.
  - split; [intros _ v [=] | reflexivity].
Qed.

Lemma check_reports {A} (value : option A) (ok : A -> bool) (message : string)
    (v : A) :
  value = Some v -> ok v = false -> In message (check value ok message).
Proof. intros -> Hok. unfold check. rewrite Hok. simpl; auto. Qed.

(** A request that passes the validator has its limit and offset in range. *)
Lemma validated_limit_offset (req : RawQuery) :
  validateProductSearch req = [] ->
  (forall n, q_limit req = Some n -> 1 <= n <= 100) /\
  (forall n, q_offset req = Some n -> 0 <= n).
Proof.
  unfold validateProductSearch. intros Hv.
  do 8 (apply List.app_eq_nil in Hv as [_ Hv]).
  apply List.app_eq_nil in Hv as [Hl Ho].
  split.
  - intros n Hn. apply (proj1 (check_nil _ _ _) Hl) in Hn.
    apply andb_true_iff in Hn as [H1 H2]. lia.
  - intros n Hn. apply (proj1 (check_nil _ _ _) Ho) in Hn. lia.
Qed.

(** C4, as the code has it.  A request that passes the validator reaches the
    engine with a limit in [1, 100] and an offset of at least 0: a value
    that is present is passed on as it is, and 50 and 0 stand for absent
    values.  The engine takes its window with exactly the values it is
    given, whatever they are: it echoes them in the metadata and returns the
    ranked list cut from [offset] to [offset + limit], so for a validated
    request the page holds the smaller of [limit] and [total - offset]
    results.  A limit or an offset that is present and out of range is not
    clamped: the validator reports it and the request is rejected. *)
Theorem validated_window_in_range `{Externals} (req : RawQuery)
    (products : list Product) (w : World) :
  let params := controllerParams (sanitized req) in
  let md := metadata (fst (search products params w)) in
  (validateProductSearch req = [] ->
   1 <= m_limit md <= 100 /\ 0 <= m_offset md /\
   (q_limit req = None -> m_limit md = 50) /\
   (q_offset req = None -> m_offset md = 0) /\
   (forall n, q_limit req = Some n -> m_limit md = n) /\
   (forall n, q_offset req = Some n -> m_offset md = n) /\
   results (fst (search products params w))
   = List.map to_result_item
       (js_slice (rankedResults products params)
          (m_offset md) (m_offset md + m_limit md)) /\
   Z.of_nat (length (results (fst (search products params w))))
   = (if total md <=? m_offset md then 0
      else Z.min (m_limit md) (total md - m_offset md))) /\
  (forall n, q_limit req = Some n -> n < 1 \/ 100 < n ->
             In "Limit must be between 1 and 100" (validateProductSearch req) /\
             exists errors, searchRoute req w = (BadRequest400 errors, w)) /\
  (forall n, q_offset req = Some n -> n < 0 ->
             In "Offset must be a non-negative integer" (validateProductSearch req) /\
             exists errors, searchRoute req w = (BadRequest400 errors, w)) /\
  (forall (given : SearchParams) (lim off : Z),
      limit given = Some lim -> offset given = Some off ->
      let r := fst (search products given w) in
      m_limit (metadata r) = lim /\ m_offset (metadata r) = off /\
      results r
      = List.map to_result_item
          (js_slice (rankedResults products given) off (off + lim))).
Proof.
  intros params md.
  destruct (search_metadata products params w) as (Ht & Hl & Ho & _).
  fold md in Ht, Hl, Ho. cbv zeta in Ht, Hl, Ho.
  assert (Hrej : forall message,
             In message (validateProductSearch req) ->
             exists errors, searchRoute req w = (BadRequest400 errors, w)).
  { intros message Hin. unfold searchRoute.
    destruct (validateProductSearch req) as [| e es]; [destruct Hin |].
    exists (e :: es). reflexivity. }
  split; [| split; [| split]].
  - intros Hv. apply validated_limit_offset in Hv as [Hlim Hoff].
    assert (Hpass : 1 <= m_limit md <= 100 /\ 0 <= m_offset md /\
                    (q_limit req = None -> m_limit md = 50) /\
                    (q_offset req = None -> m_offset md = 0) /\
                    (forall n, q_limit req = Some n -> m_limit md = n) /\
                    (forall n, q_offset req = Some n -> m_offset md = n)).
    { rewrite Hl, Ho. unfold params. simpl.
      destruct (q_limit req) as [n |] eqn:Hn;
        destruct (q_offset req) as [m |] eqn:Hm;
        simpl; try specialize (Hlim n eq_refl); try specialize (Hoff m eq_refl);
        repeat match goal with
               | |- context [?a =? 0] => destruct (Z.eqb_spec a 0)
               end;
        repeat split; intros; try discriminate;
        repeat match goal with
               | E : Some _ = Some _ |- _ => injection E as <-
               end; lia. }
    destruct Hpass as (Hl1 & Ho1 & Hl2 & Ho2 & Hl3 & Ho3).
    repeat (split; [assumption |]).
    assert (Hres : results (fst (search products params w))
                   = List.map to_result_item
                       (js_slice (rankedResults products params)
                          (m_offset md) (m_offset md + m_limit md))).
    { rewrite search_results, Hl, Ho. reflexivity. }
    split; [exact Hres |].
    rewrite Hres, List.length_map, js_slice_length by lia.
    rewrite Ht. reflexivity.
  - intros n Hn Hout.
    assert (Hin : In "Limit must be between 1 and 100" (validateProductSearch req)).
    { unfold validateProductSearch. do 8 (apply List.in_or_app; right).
      apply List.in_or_app; left.
      apply (check_reports _ _ _ n Hn).
      apply andb_false_iff. destruct Hout; [left | right]; lia. }
    split; [exact Hin | eapply Hrej, Hin].
  - intros n Hn Hneg.
    assert (Hin : In "Offset must be a non-negative integer"
                    (validateProductSearch req)).
    { unfold validateProductSearch. do 9 (apply List.in_or_app; right).
      apply (check_reports _ _ _ n Hn). lia. }
    split; [exact Hin | eapply Hrej, Hin].
  - intros given lim off Hlim Hoff r.
    destruct (search_metadata products given w) as (_ & Hgl & Hgo & _).
    cbv zeta in Hgl, Hgo. unfold r.
    rewrite Hgl, Hgo, search_results, Hlim, Hoff. auto.
Qed.

Lemma validated_window_in_range_witness :
  1 <= m_limit (metadata (fst (@search Sample.shop [Sample.pixel8]
         (controllerParams (sanitized (Sample.rawWindow None (Some 20))))
         Sample.start))) <= 100 /\
  0 <= m_offset (metadata (fst (@search Sample.shop [Sample.pixel8]
         (controllerParams (sanitized (Sample.rawWindow None (Some 20))))
         Sample.start))).
Proof.
  destruct (@validated_window_in_range Sample.shop
              (Sample.rawWindow None (Some 20)) [Sample.pixel8] Sample.start)
    as [Hok _].
  destruct (Hok eq_refl) as (Hlim & Hoff & _).
  split; [exact Hlim | exact Hoff].
Defined.

(** C4 as stated fails: the engine takes the window with a limit of 500 and
    an offset of -1 as they are, and the route rejects a limit of 500. *)
Lemma out_of_range_window_is_not_normalized :
  m_limit (metadata (fst (@search Sample.shop
     [Sample.pixel8; Sample.pixel7; Sample.soldOut]
     (Sample.window (Some 500) (Some (-1))) Sample.start))) = 500 /\
  m_offset (metadata (fst (@search Sample.shop
     [Sample.pixel8; Sample.pixel7; Sample.soldOut]
     (Sample.window (Some 500) (Some (-1))) Sample.start))) = -1 /\
  length (results (fst (@search Sample.shop
     [Sample.pixel8; Sample.pixel7; Sample.soldOut]
     (Sample.window (Some 500) (Some (-1))) Sample.start))) = 1%nat /\
  fst (@searchRoute Sample.shop (Sample.rawWindow (Some 500) None) Sample.start)
  = BadRequest400 ["Limit must be between 1 and 100"].
Proof. vm_compute. repeat split; reflexivity. Qed.

(** ** Popularity tracker *)

Lemma logSearchAnalytics_counts (q : string) (n : Z) (w : World) :
  q <> "" ->
  let key := Str.trim (Str.toLowerCase q) in
  let w' := snd (logSearchAnalytics q n w) in
  JsMap.get key (popularSearches w')
  = Some (default 0 (JsMap.get key (popularSearches w)) + 1) /\
  (forall k, k <> key ->
             JsMap.get k (popularSearches w') = JsMap.get k (popularSearches w)).
Proof.
  intros Hq. apply truthy_nonempty in Hq. unfold logSearchAnalytics.
  rewrite Hq. simpl. split.
  - apply JsMap_get_set_eq.
  - intros k Hk. apply JsMap_get_set_ne. congruence.
Qed.

(** The engine's own path.  Every run of the engine's [search] with a
    non-empty query adds exactly one to the counter of the lowercased and
    trimmed query and touches no other counter, whatever the number of
    results; a call of the service that is answered from the cache returns
    the stored result and leaves every counter as it was.  Three runs of
    [search] for "pixel" and one for "iphone", from no counter at all, make
    [getPopularSearches(1)] return the pair of "pixel" and 3. *)
Theorem engine_search_counts_query `{Externals} (products : list Product)
    (params : SearchParams) (w : World) (q : string) :
  query params = Some q -> q <> "" ->
  let key := Str.trim (Str.toLowerCase q) in
  let w' := snd (search products params w) in
  JsMap.get key (popularSearches w')
  = Some (default 0 (JsMap.get key (popularSearches w)) + 1) /\
  (forall k, k <> key ->
             JsMap.get k (popularSearches w') = JsMap.get k (popularSearches w)) /\
  (forall e, searchCache w !! generateCacheKey params = Some e ->
             clock (S (ticks w)) <= expiry e ->
             fst (searchProducts params w) = Returned (data e) /\
             popularSearches (snd (searchProducts params w)) = popularSearches w) /\
  (forall ps1 ps2 ps3 ps4 w0,
      popularSearches w0 = JsMap.empty ->
      getPopularSearches 1
        (snd (search ps4 (Sample.byQuery "iphone")
           (snd (search ps3 (Sample.byQuery "pixel")
              (snd (search ps2 (Sample.byQuery "pixel")
                 (snd (search ps1 (Sample.byQuery "pixel") w0))))))))
      = [("pixel", 3)]).
Proof.
  intros Hquery Hq key w'.
  destruct (logSearchAnalytics_counts q 0 w Hq) as [Hcount Hothers].
  assert (Hw' : popularSearches w'
                = popularSearches (snd (logSearchAnalytics q 0 w))).
  { unfold w'. rewrite search_world, Hquery. reflexivity. }
  rewrite Hw'.
  split; [exact Hcount |]. split; [exact Hothers |]. split.
  - intros e He Hlive.
    unfold searchProducts, mbind, M_bind, Date_now.
    rewrite (getFromCache_live (generateCacheKey params) (tick w) e);
      [| exact He | exact Hlive].
    split; reflexivity.
  - intros ps1 ps2 ps3 ps4 w0 Hempty. unfold getPopularSearches.
    rewrite !search_world. simpl. rewrite Hempty. reflexivity.
Qed.

Lemma engine_search_counts_query_witness :
  JsMap.get "pixel"
    (popularSearches
       (snd (@search Sample.shop [Sample.pixel8] (Sample.byQuery " Pixel ")
               Sample.start)))
  = Some 1.
Proof.
  destruct (@engine_search_counts_query Sample.shop [Sample.pixel8]
              (Sample.byQuery " Pixel ") Sample.start " Pixel "
              eq_refl ltac:(discriminate)) as [Hcount _].
  exact Hcount.
Defined.

(** C3.  The service counts a query only where it runs the engine.  A call
    that is answered from the cache returns the stored result and adds
    nothing to any counter, and neither does a call that finds no entry and
    an empty candidate list, although its query is not empty.  So of three
    calls of [searchProducts] for "pixel" in a row, followed by one for
    "iphone", only the first "pixel" is counted: [getPopularSearches(1)]
    returns the pair of "pixel" and 1, not 3; and a search for "pixel" in an
    empty catalogue leaves the tracker empty. *)
Theorem cached_searches_are_not_counted `{Externals} (params : SearchParams)
    (w : World) :
  (forall e, searchCache w !! generateCacheKey params = Some e ->
             clock (S (ticks w)) <= expiry e ->
             fst (searchProducts params w) = Returned (data e) /\
             popularSearches (snd (searchProducts params w)) = popularSearches w) /\
  (searchCache w !! generateCacheKey params = None ->
   getProductsForSearch params = Some [] ->
   popularSearches (snd (searchProducts params w)) = popularSearches w) /\
  getPopularSearches 1
    (snd (@searchProducts Sample.shop (Sample.byQuery "iphone")
       (snd (@searchProducts Sample.shop (Sample.byQuery "pixel")
          (snd (@searchProducts Sample.shop (Sample.byQuery "pixel")
             (snd (@searchProducts Sample.shop (Sample.byQuery "pixel")
                Sample.start))))))))
  = [("pixel", 1)] /\
  popularSearches
    (snd (@searchProducts Sample.emptyShop (Sample.byQuery "pixel") Sample.start))
  = [].
Proof.
  split; [| split; [| vm_compute; split; reflexivity]].
  - intros e He Hlive.
    unfold searchProducts, mbind, M_bind, Date_now.
    rewrite (getFromCache_live (generateCacheKey params) (tick w) e);
      [| exact He | exact Hlive].
    split; reflexivity.
  - intros Hmiss Hnone.
    unfold searchProducts, mbind, M_bind, Date_now.
    rewrite getFromCache_miss by exact Hmiss.
    unfold computeAndCache. rewrite Hnone.
    unfold mbind, M_bind, Date_now, mret, M_ret.
    match goal with
    | |- context [setCache ?k ?d ?w0] =>
        pose proof (setCache_popular k d w0) as Hpop;
        destruct (setCache k d w0) as [u w1]
    end.
    simpl in *. rewrite Hpop. reflexivity.
Qed.

(** ** Boosts and the relevance order *)

Lemma boosted_pos (r : MatchRecord) : (0 < score r)%Q -> (0 < boosted r)%Q.
Proof.
  intros Hs. unfold boosted.
  destruct (is_featured (item r)), (is_bestseller (item r)),
    (opt_gt (average_rating (item r)) 4), (10 <? stock_quantity (item r)),
    (stock_quantity (item r) <=? 0); lra.
Qed.

(** The featured boost alone: all else equal, the boosted score of the
    featured record is 1.2 times that of the other. *)
Lemma boosted_featured (featured plain : MatchRecord) :
  is_featured (item featured) = true ->
  is_featured (item plain) = false ->
  is_bestseller (item featured) = is_bestseller (item plain) ->
  average_rating (item featured) = average_rating (item plain) ->
  stock_quantity (item featured) = stock_quantity (item plain) ->
  (score featured == score plain)%Q ->
  (boosted featured == (12 # 10) * boosted plain)%Q.
Proof.
  intros Hf Hp Hb Hr Hs Hscore. unfold boosted.
  rewrite Hf, Hp, Hb, Hr, Hs.
  destruct (is_bestseller (item plain)), (opt_gt (average_rating (item plain)) 4),
    (10 <? stock_quantity (item plain)), (stock_quantity (item plain) <=? 0); lra.
Qed.

(** C2. Of two records with the same query-derived score that differ in
    [is_featured] only, with no boost reaching past 1, the featured one ends
    with 1.2 times the score of the other; under the relevance key and the
    direction "desc", which [search] substitutes for an absent direction,
    the sort then puts the featured record after the other one, whichever
    came first. *)
Theorem featured_item_sorts_last_by_default `{Externals}
    (featured plain : MatchRecord) :
  is_featured (item featured) = true ->
  is_featured (item plain) = false ->
  is_bestseller (item featured) = is_bestseller (item plain) ->
  average_rating (item featured) = average_rating (item plain) ->
  stock_quantity (item featured) = stock_quantity (item plain) ->
  (score featured == score plain)%Q ->
  (0 < score plain)%Q ->
  (boosted featured <= 1)%Q ->
  let ff := with_score featured (Qmin (boosted featured) 1) in
  let fp := with_score plain (Qmin (boosted plain) 1) in
  applyAdvancedScoring [featured; plain] = [ff; fp] /\
  (score ff == (12 # 10) * score fp)%Q /\
  sortResults (applyAdvancedScoring [featured; plain]) "relevance" "desc"
  = [fp; ff] /\
  sortResults (applyAdvancedScoring [plain; featured]) "relevance" "desc"
  = [fp; ff].
Proof.
  intros Hf Hp Hb Hr Hs Hscore Hpos Hcap ff fp.
  pose proof (boosted_featured featured plain Hf Hp Hb Hr Hs Hscore) as Hratio.
  pose proof (boosted_pos plain Hpos) as Hbp.
  assert (Hff : (score ff == boosted featured)%Q)
    by (simpl; apply Q.min_l, Hcap).
  assert (Hfp : (score fp == boosted plain)%Q)
    by (simpl; apply Q.min_l; lra).
  split; [reflexivity |]. split; [lra |].
  unfold sortResults, applyAdvancedScoring. simpl. fold ff fp.
  assert (Hgt : Qltb 0 (comparison "relevance" ff fp * -1) = true)
    by (apply Qltb_lt; unfold comparison; simpl String.eqb; cbv iota; lra).
  assert (Hle : Qltb 0 (comparison "relevance" fp ff * -1) = false)
    by (apply Qltb_ge; unfold comparison; simpl String.eqb; cbv iota; lra).
  rewrite Hgt, Hle. split; reflexivity.
Qed.

Lemma featured_item_sorts_last_by_default_witness :
  (score (with_score (Sample.record Sample.pixel8 (7 # 10))
            (Qmin (boosted (Sample.record Sample.pixel8 (7 # 10))) 1))
   == (12 # 10) *
      score (with_score (Sample.record Sample.pixel7 (7 # 10))
               (Qmin (boosted (Sample.record Sample.pixel7 (7 # 10))) 1)))%Q /\
  List.map (fun r => id (item r))
    (@sortResults Sample.shop
       (applyAdvancedScoring
          [Sample.record Sample.pixel8 (7 # 10);
           Sample.record Sample.pixel7 (7 # 10)])
       "relevance" "desc")
  = ["p2"; "p1"].
Proof.
  destruct (@featured_item_sorts_last_by_default Sample.shop
              (Sample.record Sample.pixel8 (7 # 10))
              (Sample.record Sample.pixel7 (7 # 10))
              eq_refl eq_refl eq_refl eq_refl eq_refl
              ltac:(reflexivity) ltac:(reflexivity) ltac:(vm_compute; discriminate))
    as (_ & Hratio & Hsorted & _).
  split; [exact Hratio |].
  exact (f_equal (List.map (fun r => id (item r))) Hsorted).
Defined.

(** The whole engine on the shop, query "google", default sort: both
    phones match on the brand only, and the featured one comes last. *)
Example google_search_puts_featured_last :
  List.map (fun it => (id (r_product it), _searchScore it))
    (results (fst (@search (Sample.world_of [] [] 1000)
                     [Sample.pixel8; Sample.pixel7] (Sample.byQuery "google")
                     Sample.start)))
  = [("p2", 7 # 10); ("p1", 84 # 100)].
Proof. vm_compute. reflexivity. Qed.

(** ** Sort keys *)

(** Under the key "price" and the direction "asc" the result is in ascending
    order of price. *)
Lemma sort_insert_sorted {A} (key : A -> Q) (x : A) (l : list A) :
  Sorted (fun a b => (key a <= key b)%Q) l ->
  Sorted (fun a b => (key a <= key b)%Q)
    (sort_insert (fun a b => (key a - key b) * 1)%Q x l).
Proof.
  induction l as [| y l IH]; intros Hs; simpl.
  - repeat constructor.
  - destruct (Qltb 0 ((key x - key y) * 1)) eqn:Hcmp.
    + apply Sorted_inv in Hs as [Hs Hhd]. constructor; [apply IH, Hs |].
      apply Qltb_lt in Hcmp.
      destruct l as [| z l]; simpl.
      * constructor. lra.
      * destruct (Qltb 0 ((key x - key z) * 1)); constructor;
          [apply HdRel_inv in Hhd; exact Hhd | lra].
    + apply Qltb_ge in Hcmp. constructor; [exact Hs |]. constructor. lra.
Qed.

Lemma sortResults_price_asc_sorted `{Externals} (rs : list MatchRecord) :
  Sorted (fun a b => (parseFloat_or0 (price (item a))
                      <= parseFloat_or0 (price (item b)))%Q)
    (sortResults rs "price" "asc").
Proof.
  unfold sortResults. simpl.
  induction rs as [| r rs IH]; simpl; [constructor |].
  apply (sort_insert_sorted (fun r => parseFloat_or0 (price (item r)))), IH.
Qed.

(** A key without a case of its own is ordered as "relevance". *)
Lemma unknown_sort_key_falls_back `{Externals} (rs : list MatchRecord)
    (sortBy sortOrder : string) :
  sortBy <> "price" -> sortBy <> "name" -> sortBy <> "rating" ->
  sortResults rs sortBy sortOrder = sortResults rs "relevance" sortOrder.
Proof.
  intros Hp Hn Hr. unfold sortResults, comparison.
  destruct (String.eqb_spec sortBy "relevance"); [subst; reflexivity |].
  destruct (String.eqb_spec sortBy "price"); [contradiction |].
  destruct (String.eqb_spec sortBy "name"); [contradiction |].
  destruct (String.eqb_spec sortBy "rating"); [contradiction |].
  reflexivity.
Qed.

(** C8. [sortResults] has no case for the keys "stock" and "date", which the
    request validator accepts: both fall to the default branch and order by
    score, in either direction.  On three records whose stock and creation
    time grow along the list the result follows neither. *)
Theorem stock_and_date_sort_by_score `{Externals} (rs : list MatchRecord)
    (sortOrder : string) :
  sortResults rs "stock" sortOrder = sortResults rs "relevance" sortOrder /\
  sortResults rs "date" sortOrder = sortResults rs "relevance" sortOrder /\
  validateProductSearch (Sample.rawSortBy "stock") = [] /\
  validateProductSearch (Sample.rawSortBy "date") = [] /\
  List.map (fun r => stock_quantity (item r))
    (sortResults Sample.threeRecords "stock" "asc") = [2; 3; 1] /\
  List.map (fun r => stock_quantity (item r))
    (sortResults Sample.threeRecords "stock" "desc") = [1; 3; 2] /\
  List.map (fun r => created_at (item r))
    (sortResults Sample.threeRecords "date" "asc") = [200; 300; 100] /\
  List.map (fun r => created_at (item r))
    (sortResults Sample.threeRecords "date" "desc") = [100; 300; 200].
Proof.
  repeat split; reflexivity.
Qed.

(** ** Fuzzy matcher *)

(** C1. The fuzzy matcher hands on the score Fuse reports, as it is: the
    records carry Fuse's scores in Fuse's order, on Fuse's scale where 0 is
    the perfect match; nothing is inverted.  A hit that Fuse reports with
    score 0 is a record with score 0. *)
Theorem fuzzySearch_keeps_fuse_score `{Externals} (products : list Product)
    (q : string) :
  List.map score (fuzzySearch products q)
  = List.map fr_score (Fuse_search fuseOptions products q) /\
  List.map item (fuzzySearch products q)
  = List.map fr_item (Fuse_search fuseOptions products q) /\
  List.map matches (fuzzySearch products q)
  = List.map fr_matches (Fuse_search fuseOptions products q) /\
  (forall fr, In fr (Fuse_search fuseOptions products q) ->
              (fr_score fr == 0)%Q ->
              exists r, In r (fuzzySearch products q) /\
                        item r = fr_item fr /\ (score r == 0)%Q /\
                        ~ (score r == 1 - fr_score fr)%Q).
Proof.
  unfold fuzzySearch. rewrite !List.map_map. simpl.
  repeat (split; [reflexivity |]).
  intros fr Hin Hzero. exists (fuzzy_record fr).
  split; [apply List.in_map, Hin |]. split; [reflexivity |].
  simpl. split; [exact Hzero | lra].
Qed.

(** The whole engine where Fuse reports a perfect hit that no other matcher
    finds: the item is returned with the final score 0. *)
Example perfect_fuzzy_hit_scores_zero :
  List.map (fun it => (id (r_product it), _searchScore it))
    (results (fst (@search (Sample.world_of [] [Sample.flagshipHit] 1000)
                     [Sample.flagship] (Sample.byQuery "flagship")
                     Sample.start)))
  = [("p9", 0%Q)].
Proof. vm_compute. reflexivity. Qed.

(** * Further properties of the code *)

(** ** The cache between two calls *)

(** A computed result is stored under the key, with an expiry one TTL after
    a reading of the clock taken during the call. *)
Lemma computeAndCache_stored `{Externals} (params : SearchParams)
    (startTime : Z) (key : string) (w : World) (r : SearchResult) :
  fst (computeAndCache params startTime key w) = Returned r ->
  exists n : nat,
    (ticks w <= n < ticks (snd (computeAndCache params startTime key w)))%nat /\
    searchCache (snd (computeAndCache params startTime key w)) !! key
    = Some {| data := r; expiry := clock n + cacheExpiry |} /\
    popularSearches (snd (computeAndCache params startTime key w))
    = popularSearches
        (snd (match getProductsForSearch params with
              | Some (p :: ps) => search (p :: ps) params w
              | _ => (emptyResult params 0 0, w)
              end)).
Proof.
  unfold computeAndCache.
  destruct (getProductsForSearch params) as [[| p ps] |].
  - unfold mbind, M_bind, mret, M_ret, Date_now.
    pose proof (setCache_stored key
                  (emptyResult params startTime (clock (ticks w))) (tick w))
      as (n & Hn & Hstored).
    pose proof (setCache_popular key
                  (emptyResult params startTime (clock (ticks w))) (tick w))
      as Hpop.
    destruct (setCache key _ (tick w)) as [[] w2]. simpl in *.
    intros [= <-]. exists n. split; [lia |]. split; [exact Hstored | exact Hpop].
  - unfold mbind, M_bind, mret, M_ret.
    pose proof (search_world (p :: ps) params w) as Hworld.
    destruct (search (p :: ps) params w) as [sr w1]. simpl in Hworld.
    pose proof (setCache_stored key (enhanceSearchResults sr) w1)
      as (n & Hn & Hstored).
    pose proof (setCache_popular key (enhanceSearchResults sr) w1) as Hpop.
    destruct (setCache key (enhanceSearchResults sr) w1) as [[] w2].
    unfold Date_now. simpl in *. intros [= <-]. exists n.
    split; [rewrite Hworld in Hn; simpl in Hn; lia |].
    split; [exact Hstored | exact Hpop].
  - unfold mbind, M_bind, mret, M_ret, Date_now. simpl. discriminate.
Qed.

(** X1. A call that finds no entry under its key and returns a result stores
    it; a second call with the same request, made while the clock is still
    within one TTL of the readings of the first, returns the same result from
    the cache: it takes two readings of the clock and changes neither the
    cache nor the counters. *)
Theorem repeated_search_served_from_cache `{Externals} (params : SearchParams)
    (w : World) (r : SearchResult) :
  searchCache w !! generateCacheKey params = None ->
  fst (searchProducts params w) = Returned r ->
  (forall n : nat, (ticks w <= n)%nat ->
     clock (S (ticks (snd (searchProducts params w)))) <= clock n + cacheExpiry) ->
  searchProducts params (snd (searchProducts params w))
  = (Returned r, tick (tick (snd (searchProducts params w)))).
Proof.
  intros Hmiss Hret Hfresh.
  assert (Hfirst : searchProducts params w
                   = computeAndCache params (clock (ticks w))
                       (generateCacheKey params) (tick w)).
  { unfold searchProducts, mbind, M_bind, Date_now.
    rewrite getFromCache_miss by exact Hmiss. reflexivity. }
  rewrite Hfirst in *.
  destruct (computeAndCache_stored params (clock (ticks w))
              (generateCacheKey params) (tick w) r Hret)
    as (n & Hn & Hstored & _).
  set (w1 := snd (computeAndCache params (clock (ticks w))
                    (generateCacheKey params) (tick w))) in *.
  unfold searchProducts at 1. unfold mbind, M_bind, Date_now.
  rewrite (getFromCache_live (generateCacheKey params) (tick w1)
             {| data := r; expiry := clock n + cacheExpiry |});
    [reflexivity | exact Hstored |].
  simpl. apply Hfresh. simpl in Hn. lia.
Qed.

Lemma repeated_search_served_from_cache_witness :
  @searchProducts Sample.shop (Sample.byQuery "pixel")
    (snd (@searchProducts Sample.shop (Sample.byQuery "pixel") Sample.start))
  = (Returned
       (enhanceSearchResults
          (fst (@search Sample.shop
                  [Sample.pixel8; Sample.pixel7; Sample.soldOut]
                  (Sample.byQuery "pixel") (tick Sample.start)))),
     tick (tick (snd (@searchProducts Sample.shop (Sample.byQuery "pixel")
                        Sample.start)))).
Proof.
  apply (@repeated_search_served_from_cache Sample.shop
           (Sample.byQuery "pixel") Sample.start).
  - vm_compute. reflexivity.
  - vm_compute. reflexivity.
  - intros n Hn.
    assert (Hticks : ticks (snd (@searchProducts Sample.shop
                                   (Sample.byQuery "pixel") Sample.start))
                     = 5%nat) by (vm_compute; reflexivity).
    rewrite Hticks.
    change (1000 * Z.of_nat 6 <= 1000 * Z.of_nat n + 5 * 60 * 1000). lia.
Defined.

(** X2. Storing under one key leaves the entries of the other keys alone as
    long as the cache holds at most 100 entries; past that it drops exactly
    those whose expiry lies before the reading of the clock it takes, and
    never an entry that is still live. *)
Theorem setCache_drops_only_expired `{Externals} (key k : string)
    (d : SearchResult) (w : World) (e : CacheEntry) :
  k <> key ->
  searchCache w !! k = Some e ->
  ((size (searchCache w) <= 100)%nat \/ clock (ticks w) <= expiry e ->
   searchCache (snd (setCache key d w)) !! k = Some e) /\
  ((100 < size (searchCache w))%nat /\ expiry e < clock (ticks w) ->
   searchCache (snd (setCache key d w)) !! k = None).
Proof.
  intros Hne Hk. unfold setCache, clearExpiredCache, Date_now.
  destruct (Nat.ltb_spec 100 (size (searchCache w))) as [Hbig | Hsmall]; simpl.
  - split.
    + intros [Hle | Hlive]; [lia |].
      rewrite lookup_insert_ne by congruence.
      apply map_lookup_filter_Some. split; [exact Hk | simpl; lia].
    + intros [_ Hexp]. rewrite lookup_insert_ne by congruence.
      apply map_lookup_filter_None. right. intros e' He'. simpl.
      rewrite Hk in He'. injection He' as <-. lia.
  - split.
    + intros _. rewrite lookup_insert_ne by congruence. exact Hk.
    + intros [Hbig _]. lia.
Qed.

Lemma setCache_drops_only_expired_witness :
  searchCache
    (snd (@setCache Sample.shop "other"
            (emptyResult Sample.noParams 0 0)
            (snd (@searchProducts Sample.shop (Sample.byQuery "pixel")
                    Sample.start))))
    !! "pixel|relevance|desc|50|0"
  = Some {| data :=
              enhanceSearchResults
                (fst (@search Sample.shop
                        [Sample.pixel8; Sample.pixel7; Sample.soldOut]
                        (Sample.byQuery "pixel") (tick Sample.start)));
            expiry := 303000 |}.
Proof.
  refine (proj1 (@setCache_drops_only_expired Sample.shop "other"
                   "pixel|relevance|desc|50|0"
                   (emptyResult Sample.noParams 0 0)
                   (snd (@searchProducts Sample.shop (Sample.byQuery "pixel")
                           Sample.start))
                   _ _ _) _).
  - discriminate.
  - vm_compute. reflexivity.
  - left. vm_compute. lia.
Defined.

(** X3. The statistics of the cache add up: the active and the expired
    entries make the total, none of the three is negative, and the number of
    active entries is the number of entries a sweep at the same reading of
    the clock would keep.  Taking the statistics changes no entry. *)
Theorem getCacheStats_counts `{Externals} (w : World) :
  let stats := fst (getCacheStats w) in
  totalEntries stats = activeEntries stats + expiredEntries stats /\
  0 <= activeEntries stats <= totalEntries stats /\
  0 <= expiredEntries stats /\
  activeEntries stats
  = Z.of_nat (size (searchCache (snd (clearExpiredCache w)))) /\
  stats_cacheExpiry stats = 300000 /\
  snd (getCacheStats w) = tick w.
Proof.
  unfold getCacheStats, clearExpiredCache, Date_now. simpl.
  set (P := fun kv : string * CacheEntry => expiry (snd kv) < clock (ticks w)).
  pose proof (map_size_filter P (searchCache w)) as Hle.
  assert (Hsum : size (searchCache w)
                 = (size (filter P (searchCache w))
                    + size (filter (fun kv => ¬ P kv) (searchCache w)))%nat).
  { rewrite <- map_size_disj_union by apply map_disjoint_filter_complement.
    rewrite map_filter_union_complement. reflexivity. }
  subst P. cbv beta in *. repeat split; try lia; reflexivity.
Qed.

(** ** Cache keys *)

Lemma applyBasicFilters_sound (products : list Product) (f : Filters)
    (p : Product) :
  In p (applyBasicFilters products f) -> FilterSpec.satisfies f p.
Proof.
  unfold applyBasicFilters. rewrite List.filter_In, keep_product_spec. tauto.
Qed.

(** X5. A maximum price of 0 is dropped from the cache key ([maxPrice || '']),
    so the request shares its key with the same request without a maximum
    price: where that one has a live entry, the call returns its stored
    result, although the filter stage under a maximum of 0 keeps no product
    with a positive price. *)
Theorem zero_max_price_served_unbounded_result `{Externals}
    (params : SearchParams) (w : World) (e : CacheEntry) (q : Q) :
  maxPrice params = Some q -> (q == 0)%Q ->
  searchCache w !! generateCacheKey (withMaxPrice params None) = Some e ->
  clock (S (ticks w)) <= expiry e ->
  generateCacheKey params = generateCacheKey (withMaxPrice params None) /\
  searchProducts params w = (Returned (data e), tick (tick w)) /\
  (forall products p,
      (0 < parseFloat_or0 (price p))%Q ->
      ~ In p (applyBasicFilters products (filtersOf params))).
Proof.
  intros Hmax Hzero Hk Hlive.
  assert (Hkey : generateCacheKey params
                 = generateCacheKey (withMaxPrice params None)).
  { unfold generateCacheKey, keyData. simpl. rewrite Hmax. simpl.
    apply Qeq_bool_iff in Hzero. rewrite Hzero. reflexivity. }
  split; [exact Hkey |]. split.
  - unfold searchProducts, mbind, M_bind, Date_now. rewrite Hkey.
    rewrite (getFromCache_live _ (tick w) e); [reflexivity | exact Hk | exact Hlive].
  - intros products p Hprice Hin.
    apply applyBasicFilters_sound in Hin as (_ & _ & _ & [_ Hhi] & _).
    unfold filtersOf in Hhi. simpl in Hhi. rewrite Hmax in Hhi. simpl in Hhi.
    lra.
Qed.

Lemma zero_max_price_served_unbounded_result_witness :
  @searchProducts Sample.shop (withMaxPrice Sample.noParams (Some 0%Q))
    (snd (@searchProducts Sample.shop Sample.noParams Sample.start))
  = (Returned
       (enhanceSearchResults
          (fst (@search Sample.shop
                  [Sample.pixel8; Sample.pixel7; Sample.soldOut]
                  Sample.noParams (tick Sample.start)))),
     tick (tick (snd (@searchProducts Sample.shop Sample.noParams Sample.start)))).
Proof.
  refine (proj1 (proj2 (@zero_max_price_served_unbounded_result Sample.shop
            (withMaxPrice Sample.noParams (Some 0%Q))
            (snd (@searchProducts Sample.shop Sample.noParams Sample.start))
            {| data :=
                 enhanceSearchResults
                   (fst (@search Sample.shop
                           [Sample.pixel8; Sample.pixel7; Sample.soldOut]
                           Sample.noParams (tick Sample.start)));
               expiry := 303000 |}
            0%Q _ _ _ _))).
  - reflexivity.
  - reflexivity.
  - vm_compute. reflexivity.
  - vm_compute. discriminate.
Defined.

(** ** Sorting *)

(** The sort puts its result in the order of its comparator: of two
    neighbours, the second never compares before the first. *)
Lemma sort_insert_in_order {A} (cmp : A -> A -> Q) (R : A -> A -> Prop)
    (x : A) (l : list A) :
  (forall a b, Qltb 0 (cmp a b) = true -> R b a) ->
  (forall a b, Qltb 0 (cmp a b) = false -> R a b) ->
  Sorted R l -> Sorted R (sort_insert cmp x l).
Proof.
  intros Hgt Hle. induction l as [| y l IH]; intros Hs; simpl.
  - repeat constructor.
  - destruct (Qltb 0 (cmp x y)) eqn:Hcmp.
    + apply Sorted_inv in Hs as [Hs Hhd]. constructor; [apply IH, Hs |].
      destruct l as [| z l]; simpl.
      * constructor. apply Hgt, Hcmp.
      * destruct (Qltb 0 (cmp x z)); constructor;
          [apply HdRel_inv in Hhd; exact Hhd | apply Hgt, Hcmp].
    + constructor; [exact Hs |]. constructor. apply Hle, Hcmp.
Qed.

Lemma js_sort_in_order {A} (cmp : A -> A -> Q) (R : A -> A -> Prop)
    (l : list A) :
  (forall a b, Qltb 0 (cmp a b) = true -> R b a) ->
  (forall a b, Qltb 0 (cmp a b) = false -> R a b) ->
  Sorted R (js_sort cmp l).
Proof.
  intros Hgt Hle. induction l as [| x l IH]; simpl; [constructor |].
  apply sort_insert_in_order; assumption.
Qed.

(** In a list sorted by a transitive order, every element of a prefix
    stands before every element of the rest. *)
Lemma sorted_prefix_before_rest {A} (R : A -> A -> Prop) (n : nat) (l : list A) :
  Transitive R -> Sorted R l ->
  forall x y, In x (List.firstn n l) -> In y (List.skipn n l) -> R x y.
Proof.
  intros Htrans Hs. apply Sorted_StronglySorted in Hs; [| exact Htrans].
  revert n. induction Hs as [| a l Hs IH Hall]; intros n x y Hx Hy.
  - destruct n; destruct Hx.
  - destruct n as [| n]; [destruct Hx |]. simpl in Hx, Hy.
    destruct Hx as [<- | Hx].
    + rewrite List.Forall_forall in Hall. apply Hall.
      apply list_elem_of_In. eapply subseteq_drop. apply list_elem_of_In, Hy.
    + eapply IH; eauto.
Qed.

Lemma sorted_firstn {A} (R : A -> A -> Prop) (n : nat) (l : list A) :
  Sorted R l -> Sorted R (List.firstn n l).
Proof.
  intros Hs. revert n. induction Hs as [| a l Hs IH Hhd]; intros n.
  - destruct n; constructor.
  - destruct n as [| n]; simpl; [constructor |].
    constructor; [apply IH |].
    destruct Hhd as [| b l' Hab]; destruct n; simpl; constructor. exact Hab.
Qed.

(** ** Popularity tracker *)

Lemma js_slice_prefix {A} (l : list A) (lim : Z) :
  0 <= lim ->
  js_slice l 0 lim = List.firstn (Z.to_nat (Z.min lim (Z.of_nat (length l)))) l.
Proof.
  intros Hlim. unfold js_slice, slice_index. simpl.
  destruct (Z.ltb_spec lim 0); [lia |].
  replace (Z.min 0 (Z.of_nat (length l))) with 0 by lia.
  rewrite Z.sub_0_r. reflexivity.
Qed.

Lemma getPopularSearches_top_aux (lim : Z) (w : World) :
  0 <= lim ->
  Z.of_nat (length (getPopularSearches lim w))
  = Z.min lim (Z.of_nat (length (popularSearches w))) /\
  getPopularSearches lim w
  = List.firstn (Z.to_nat (Z.min lim (Z.of_nat (length (popularSearches w)))))
      (js_sort (fun a b : string * Z => inject_Z (snd b - snd a))
         (popularSearches w)).
Proof.
  intros Hlim. unfold getPopularSearches, JsMap.entries.
  rewrite js_slice_prefix by exact Hlim. rewrite js_sort_length.
  split; [| reflexivity].
  rewrite List.length_firstn, js_sort_length. lia.
Qed.

(** X6. For a limit of at least 0, the report of the popular searches holds
    the smaller of the limit and of the number of counted queries; its
    entries are entries of the counter, in order of non-increasing count, and
    no entry left out has a higher count than an entry reported. *)
Theorem getPopularSearches_top (lim : Z) (w : World) :
  0 <= lim ->
  let out := getPopularSearches lim w in
  Z.of_nat (length out) = Z.min lim (Z.of_nat (length (popularSearches w))) /\
  Sorted (fun a b => snd b <= snd a) out /\
  (forall e, In e out -> In e (popularSearches w)) /\
  (forall e e', In e out -> In e' (popularSearches w) -> ~ In e' out ->
                snd e' <= snd e).
Proof.
  intros Hlim out. unfold out, getPopularSearches, JsMap.entries.
  set (cmp := fun a b : string * Z => inject_Z (snd b - snd a)).
  set (R := fun a b : string * Z => snd b <= snd a).
  assert (Hgt : forall a b, Qltb 0 (cmp a b) = true -> R b a).
  { intros a b Hc. apply Qltb_lt in Hc. unfold cmp, R in *.
    change 0%Q with (inject_Z 0) in Hc. rewrite <- Zlt_Qlt in Hc. lia. }
  assert (Hle : forall a b, Qltb 0 (cmp a b) = false -> R a b).
  { intros a b Hc. apply Qltb_ge in Hc. unfold cmp, R in *.
    change 0%Q with (inject_Z 0) in Hc. rewrite <- Zle_Qle in Hc. lia. }
  assert (Hsorted : Sorted R (js_sort cmp (popularSearches w)))
    by (apply js_sort_in_order; assumption).
  assert (Htrans : Transitive R) by (intros a b c; unfold R; lia).
  rewrite js_slice_prefix by exact Hlim. rewrite js_sort_length.
  set (k := Z.to_nat (Z.min lim (Z.of_nat (length (popularSearches w))))).
  split; [| split; [| split]].
  - rewrite List.length_firstn, js_sort_length. lia.
  - apply sorted_firstn, Hsorted.
  - intros e He. apply (js_sort_In cmp).
    apply list_elem_of_In. eapply subseteq_take. apply list_elem_of_In, He.
  - intros e e' He He' Hout.
    apply (sorted_prefix_before_rest R k (js_sort cmp (popularSearches w)));
      [exact Htrans | exact Hsorted | exact He |].
    apply (js_sort_In cmp) in He'.
    rewrite <- (List.firstn_skipn k (js_sort cmp (popularSearches w))) in He'.
    apply List.in_app_or in He' as [He' | He']; [contradiction | exact He'].
Qed.

Lemma getPopularSearches_top_witness :
  Z.of_nat (length (getPopularSearches 1
     (snd (@search Sample.shop [] (Sample.byQuery "iphone")
        (snd (@search Sample.shop [] (Sample.byQuery "pixel")
           (snd (@search Sample.shop [] (Sample.byQuery "pixel")
              Sample.start))))))))
  = Z.min 1 (Z.of_nat (length (popularSearches
     (snd (@search Sample.shop [] (Sample.byQuery "iphone")
        (snd (@search Sample.shop [] (Sample.byQuery "pixel")
           (snd (@search Sample.shop [] (Sample.byQuery "pixel")
              Sample.start))))))))).
Proof.
  refine (proj1 (getPopularSearches_top 1 _ _)). lia.
Defined.

(** X7. The route of the popular searches reports at most 10 entries where
    no limit (or 0) is given and at most the smaller of the limit and 50 for
    a positive limit; a negative limit, which nothing rejects, is handed to
    [slice] as it is and leaves out that many entries from the end of the
    whole list instead. *)
Theorem popularSearchesRoute_length (raw : option Z) (w : World) :
  let n := Z.of_nat (length (popularSearches w)) in
  let len := Z.of_nat (length (popularSearchesRoute raw w)) in
  (raw = None \/ raw = Some 0 -> len = Z.min 10 n) /\
  (forall k, raw = Some k -> 0 < k -> len = Z.min (Z.min k 50) n) /\
  (forall k, raw = Some k -> k < 0 -> len = Z.max (n + k) 0).
Proof.
  intros n len. unfold len, n, popularSearchesRoute. split; [| split].
  - intros [-> | ->]; simpl;
      destruct (getPopularSearches_top_aux 10 w) as [Hlen _]; try lia; exact Hlen.
  - intros k -> Hk. simpl. destruct (Z.eqb_spec k 0); [lia |].
    destruct (getPopularSearches_top_aux (Z.min k 50) w) as [Hlen _]; [lia |].
    exact Hlen.
  - intros k -> Hk. simpl. destruct (Z.eqb_spec k 0); [lia |].
    rewrite Z.min_l by lia.
    unfold getPopularSearches, js_slice, slice_index, JsMap.entries.
    rewrite List.length_firstn, List.length_skipn, js_sort_length. simpl.
    destruct (Z.ltb_spec k 0); lia.
Qed.

(** What a call of the service does to the counters: nothing, or what one
    run of the tracker on the request's query does. *)
Lemma searchProducts_popular `{Externals} (params : SearchParams) (w : World) :
  popularSearches (snd (searchProducts params w)) = popularSearches w \/
  popularSearches (snd (searchProducts params w))
  = popularSearches (snd (logSearchAnalytics (default "" (query params)) 0 w)).
Proof.
  unfold searchProducts, mbind, M_bind, Date_now.
  assert (Hget : popularSearches
                   (snd (getFromCache (generateCacheKey params) (tick w)))
                 = popularSearches w).
  { unfold getFromCache, Date_now. simpl.
    destruct (searchCache w !! generateCacheKey params) as [c |]; [| reflexivity].
    simpl. destruct (expiry c <? clock (S (ticks w))); reflexivity. }
  destruct (getFromCache (generateCacheKey params) (tick w)) as [cached w1].
  simpl in Hget. destruct cached as [r |]; [left; exact Hget |].
  unfold computeAndCache.
  destruct (getProductsForSearch params) as [[| p ps] |].
  - left. unfold mbind, M_bind, mret, M_ret, Date_now.
    pose proof (setCache_popular (generateCacheKey params)
                  (emptyResult params (clock (ticks w)) (clock (ticks w1)))
                  (tick w1)) as Hpop.
    destruct (setCache _ _ (tick w1)) as [[] w2]. simpl in *. congruence.
  - right. unfold mbind, M_bind, mret, M_ret.
    pose proof (search_world (p :: ps) params w1) as Hworld.
    destruct (search (p :: ps) params w1) as [sr w2]. simpl in Hworld.
    pose proof (setCache_popular (generateCacheKey params)
                  (enhanceSearchResults sr) w2) as Hpop.
    destruct (setCache _ _ w2) as [[] w3]. unfold Date_now. simpl in *.
    rewrite Hpop, Hworld. simpl.
    unfold logSearchAnalytics.
    destruct (Str.truthy (default "" (query params))); simpl;
      rewrite ?Hget; reflexivity.
  - left. unfold mbind, M_bind, mret, M_ret, Date_now. simpl. exact Hget.
Qed.

(** X8. No call of the search service removes a counted query or lowers a
    count: every count stays or grows by one, and a call counts at most the
    one query it was given. *)
Theorem searchProducts_counts_never_decrease `{Externals}
    (params : SearchParams) (w : World) (k : string) (c : Z) :
  JsMap.get k (popularSearches w) = Some c ->
  exists c',
    JsMap.get k (popularSearches (snd (searchProducts params w))) = Some c' /\
    c <= c' <= c + 1 /\
    (c' = c + 1 ->
     k = Str.trim (Str.toLowerCase (default "" (query params)))).
Proof.
  intros Hk.
  destruct (searchProducts_popular params w) as [-> | ->].
  - exists c. split; [exact Hk |]. split; lia.
  - unfold logSearchAnalytics.
    destruct (Str.truthy (default "" (query params)));
      [| exists c; split; [exact Hk | split; lia]].
    simpl.
    destruct (String.eqb_spec
                (Str.trim (Str.toLowerCase (default "" (query params)))) k)
      as [<- | Hne].
    + exists (c + 1). rewrite JsMap_get_set_eq, Hk. simpl.
      split; [reflexivity |]. split; [lia | reflexivity].
    + exists c. rewrite JsMap_get_set_ne by exact Hne.
      split; [exact Hk |]. split; lia.
Qed.

Lemma searchProducts_counts_never_decrease_witness :
  exists c',
    JsMap.get "pixel"
      (popularSearches
         (snd (@searchProducts Sample.shop (Sample.byQuery "PIXEL ")
                 (snd (@searchProducts Sample.shop (Sample.byQuery "pixel")
                         Sample.start)))))
    = Some c' /\
    1 <= c' <= 1 + 1 /\
    (c' = 1 + 1 ->
     "pixel" = Str.trim (Str.toLowerCase
                           (default "" (query (Sample.byQuery "PIXEL "))))).
Proof.
  apply (@searchProducts_counts_never_decrease Sample.shop
           (Sample.byQuery "PIXEL ")
           (snd (@searchProducts Sample.shop (Sample.byQuery "pixel")
                   Sample.start))
           "pixel" 1).
  vm_compute. reflexivity.
Defined.

(** ** Blank queries and tokens *)

Lemma is_ws_lower_char (c : ascii) : Str.is_ws (Str.lower_char c) = Str.is_ws c.
Proof.
  destruct c as [[] [] [] [] [] [] [] []]; reflexivity.
Qed.

Lemma all_ws_toLowerCase (s : string) :
  Str.all_ws (Str.toLowerCase s) = Str.all_ws s.
Proof.
  induction s as [| c s IH]; simpl; [reflexivity |].
  rewrite is_ws_lower_char, IH. reflexivity.
Qed.

Lemma trim_blank (s : string) : Str.all_ws s = true -> Str.trim s = "".
Proof.
  unfold Str.trim. induction s as [| c s IH]; simpl; [reflexivity |].
  intros Hs. apply andb_true_iff in Hs as [Hc Hs]. rewrite Hc. apply IH, Hs.
Qed.

(** X9. A query made of white space only is no text query for the engine:
    every product that passes the filters is returned, scored from 1 by the
    boosts alone; all the same the tracker counts it, under the empty
    string. *)
Theorem blank_query_is_counted_but_not_searched `{Externals}
    (products : list Product) (params : SearchParams) (w : World) (q : string) :
  query params = Some q -> q <> "" -> Str.all_ws q = true ->
  rankedResults products params
  = sortResults
      (applyAdvancedScoring
         (List.map unscored (applyBasicFilters products (filtersOf params))))
      (default "relevance" (sortBy params)) (default "desc" (sortOrder params)) /\
  JsMap.get "" (popularSearches (snd (search products params w)))
  = Some (default 0 (JsMap.get "" (popularSearches w)) + 1).
Proof.
  intros Hquery Hq Hblank. split.
  - unfold rankedResults, filtersOf. rewrite Hquery. simpl.
    rewrite (trim_blank q Hblank). simpl. rewrite andb_false_r. reflexivity.
  - rewrite search_world, Hquery. simpl.
    destruct (logSearchAnalytics_counts q 0 w Hq) as [Hcount _].
    rewrite trim_blank in Hcount by (rewrite all_ws_toLowerCase; exact Hblank).
    exact Hcount.
Qed.

Lemma blank_query_is_counted_but_not_searched_witness :
  JsMap.get ""
    (popularSearches
       (snd (@search Sample.shop [Sample.pixel8] (Sample.byQuery "  ")
               Sample.start)))
  = Some 1.
Proof.
  refine (proj2 (@blank_query_is_counted_but_not_searched Sample.shop
                   [Sample.pixel8] (Sample.byQuery "  ") Sample.start "  "
                   _ _ _)).
  - reflexivity.
  - discriminate.
  - reflexivity.
Defined.

Lemma rev_app_nonempty (s acc : string) :
  acc <> "" -> String.rev_app s acc <> "".
Proof.
  revert acc. induction s as [| c s IH]; intros acc Hacc; simpl;
    [exact Hacc | apply IH; discriminate].
Qed.

Lemma rev_nonempty (s : string) : s <> "" -> String.rev s <> "".
Proof.
  destruct s as [| c s]; [congruence |]. intros _.
  unfold String.rev. simpl. apply rev_app_nonempty. discriminate.
Qed.

Lemma trimEnd_unfold (c : ascii) (s : string) :
  Str.trimEnd (String c s)
  = if Str.all_ws (String c s) then "" else String c (Str.trimEnd s).
Proof. reflexivity. Qed.

Lemma all_ws_trimEnd (s : string) : Str.all_ws (Str.trimEnd s) = Str.all_ws s.
Proof.
  induction s as [| c s IH]; [reflexivity |].
  rewrite trimEnd_unfold.
  destruct (Str.all_ws (String c s)) eqn:Hall; [reflexivity |].
  simpl. rewrite IH. exact Hall.
Qed.

Lemma trimEnd_tight (s : string) : tight (Str.trimEnd s).
Proof.
  induction s as [| c s IH]; [exact I |].
  rewrite trimEnd_unfold.
  destruct (Str.all_ws (String c s)) eqn:Hall; [exact I |].
  split; [| exact IH].
  simpl. rewrite all_ws_trimEnd. exact Hall.
Qed.

Lemma trimStart_head (s : string) (c : ascii) (t : string) :
  Str.trimStart s = String c t -> Str.is_ws c = false.
Proof.
  induction s as [| d s IH]; simpl; [discriminate |].
  destruct (Str.is_ws d) eqn:Hd; [exact IH |]. intros [= <- <-]. exact Hd.
Qed.

Lemma trim_head (s : string) (c : ascii) (t : string) :
  Str.trim s = String c t -> Str.is_ws c = false.
Proof.
  unfold Str.trim. destruct (Str.trimStart s) as [| d u] eqn:Hstart;
    [discriminate |].
  apply trimStart_head in Hstart.
  rewrite trimEnd_unfold. simpl. rewrite Hstart. simpl.
  intros [= <- _]. exact Hstart.
Qed.

Lemma tight_toLowerCase (s : string) : tight s -> tight (Str.toLowerCase s).
Proof.
  induction s as [| c s IH]; [auto |]. intros [Hall Hs].
  split; [| apply IH, Hs].
  change (Str.all_ws (Str.toLowerCase (String c s)) = false).
  rewrite all_ws_toLowerCase. exact Hall.
Qed.

(** The scan of [split] on a string without trailing white space yields no
    empty piece, once a piece is under way or the next character starts one. *)
Lemma split_go_nonempty (s : string) :
  forall cur in_ws,
    tight s ->
    (cur = "" -> exists c s', s = String c s' /\
                              (in_ws = false -> Str.is_ws c = false)) ->
    forall tok, In tok (Str.split_go s cur in_ws) -> tok <> "".
Proof.
  induction s as [| c s IH]; intros cur in_ws Htight Hcur tok Hin.
  - simpl in Hin. destruct Hin as [<- | []].
    apply rev_nonempty. intros ->.
    destruct (Hcur eq_refl) as (c & s' & [=] & _).
  - destruct Htight as [Hall Htight]. simpl in Hall, Hin.
    assert (Hnext : Str.is_ws c = true ->
                    exists d s', s = String d s' /\ (true = false -> Str.is_ws d = false)).
    { intros Hc. rewrite Hc in Hall. simpl in Hall.
      destruct s as [| d s']; [discriminate |].
      exists d, s'. split; [reflexivity | discriminate]. }
    destruct (Str.is_ws c) eqn:Hc.
    + destruct in_ws.
      * apply (IH cur true Htight) in Hin; [exact Hin |].
        intros _. apply Hnext. reflexivity.
      * destruct Hin as [<- | Hin].
        -- apply rev_nonempty. intros ->.
           destruct (Hcur eq_refl) as (c' & s' & [= <- <-] & Hhead).
           specialize (Hhead eq_refl). congruence.
        -- apply (IH "" true Htight) in Hin; [exact Hin |].
           intros _. apply Hnext. reflexivity.
    + apply (IH (String c cur) false Htight) in Hin; [exact Hin |].
      discriminate.
Qed.

(** Every token of a query that is not blank is non-empty. *)
Lemma split_trimmed_nonempty (q tok : string) :
  Str.trim q <> "" ->
  In tok (Str.split_ws (Str.toLowerCase (Str.trim q))) ->
  tok <> "".
Proof.
  intros Hq. unfold Str.split_ws.
  apply split_go_nonempty.
  - apply tight_toLowerCase. unfold Str.trim. apply trimEnd_tight.
  - intros _. destruct (Str.trim q) as [| c t] eqn:Htrim; [congruence |].
    apply trim_head in Htrim. simpl.
    exists (Str.lower_char c), (Str.toLowerCase t).
    split; [reflexivity |]. intros _. rewrite is_ws_lower_char. exact Htrim.
Qed.

(** ** What the engine returns *)

(** The merge invents no item: the item of a merged record is the item of
    one of the records that were merged. *)
Lemma combine_item_from_input (a b c : list MatchRecord) (m : MatchRecord) :
  In m (combineSearchResults [a; b; c]) ->
  exists r, In r (a ++ b ++ c) /\ item m = item r.
Proof.
  intros Hin.
  assert (Hc : In m (candidates (id (item m)) (combineSearchResults [a; b; c]))).
  { unfold candidates. apply List.filter_In. split; [exact Hin |].
    apply String.eqb_refl. }
  rewrite combine_candidates in Hc. unfold merged_of in Hc.
  destruct (candidates (id (item m)) (a ++ b ++ c)) as [| first later] eqn:Hcand;
    [destruct Hc |].
  destruct Hc as [<- | []]. simpl. exists first. split; [| reflexivity].
  pose proof (List.in_eq first later) as Hf. rewrite <- Hcand in Hf.
  unfold candidates in Hf. apply List.filter_In in Hf. tauto.
Qed.

Lemma findExactMatches_item (products : list Product) (q : string)
    (r : MatchRecord) :
  In r (findExactMatches products q) -> In (item r) products.
Proof.
  unfold findExactMatches. rewrite List.in_flat_map. intros (p & Hp & Hin).
  destruct (exact_score p (Str.toLowerCase q)) as [s ms].
  destruct (Qltb 0 s); [| destruct Hin].
  destruct Hin as [<- | []]. exact Hp.
Qed.

Lemma findPartialMatches_item (products : list Product) (q : string)
    (r : MatchRecord) :
  In r (findPartialMatches products q) -> In (item r) products.
Proof.
  unfold findPartialMatches. rewrite List.in_flat_map. intros (p & Hp & Hin).
  destruct (List.fold_left (partial_word p) (Str.split_ws (Str.toLowerCase q))
              (0%Q, [])) as [s ms].
  destruct (Qltb 0 s); [| destruct Hin].
  destruct Hin as [<- | []]. exact Hp.
Qed.

Lemma rankedResults_item `{Externals} (products : list Product)
    (params : SearchParams) (m : MatchRecord) :
  fuse_returns_candidates ->
  In m (rankedResults products params) ->
  exists p, In p (applyBasicFilters products (filtersOf params)) /\
            (item m = p \/ item m = searchable p).
Proof.
  intros Hfuse. unfold rankedResults, sortResults. rewrite js_sort_In.
  unfold applyAdvancedScoring. rewrite List.in_map_iff.
  intros (r & <- & Hr). simpl. fold (filtersOf params) in Hr.
  destruct (Str.truthy (default "" (query params))
            && (0 <? String.length (Str.trim (default "" (query params))))%nat).
  - unfold performTextSearch in Hr.
    apply combine_item_from_input in Hr as (r0 & Hr0 & ->).
    assert (Hitem : In (item r0)
                      (List.map searchable
                         (applyBasicFilters products (filtersOf params)))).
    { apply List.in_app_or in Hr0 as [Hr0 | Hr0].
      - unfold fuzzySearch in Hr0. apply List.in_map_iff in Hr0 as (fr & <- & Hfr).
        simpl. eapply Hfuse, Hfr.
      - apply List.in_app_or in Hr0 as [Hr0 | Hr0].
        + eapply findExactMatches_item, Hr0.
        + eapply findPartialMatches_item, Hr0. }
    apply List.in_map_iff in Hitem as (p & <- & Hp). eauto.
  - apply List.in_map_iff in Hr as (p & <- & Hp). simpl. eauto.
Qed.

(** X11. With Fuse reporting only items of the list it was given, every
    item the engine returns is one of the candidates, as it is or with its
    generated keywords, and satisfies every filter of the request: it is
    active, of the requested brand and category, within the price range, and
    in stock where that is asked for. *)
Theorem results_satisfy_filters `{Externals} (products : list Product)
    (params : SearchParams) (w : World) (it : ResultItem) :
  fuse_returns_candidates ->
  In it (results (fst (search products params w))) ->
  exists p,
    In p products /\
    FilterSpec.satisfies (filtersOf params) p /\
    (r_product it = p \/ r_product it = searchable p).
Proof.
  intros Hfuse. rewrite search_results, List.in_map_iff.
  intros (m & <- & Hm). simpl. apply js_slice_In in Hm.
  apply rankedResults_item in Hm as (p & Hp & Hitem); [| exact Hfuse].
  exists p. split; [| split; [| exact Hitem]].
  - unfold applyBasicFilters in Hp. apply List.filter_In in Hp. tauto.
  - eapply applyBasicFilters_sound, Hp.
Qed.

Lemma results_satisfy_filters_witness :
  exists p,
    In p [Sample.pixel8; Sample.pixel7; Sample.soldOut] /\
    FilterSpec.satisfies (filtersOf Sample.noParams) p /\
    (Sample.pixel8 = p \/ Sample.pixel8 = searchable p).
Proof.
  apply (@results_satisfy_filters Sample.firstHitShop
           [Sample.pixel8; Sample.pixel7; Sample.soldOut]
           Sample.noParams Sample.start
           {| r_product := Sample.pixel8; _searchScore := 1;
              _matches := []; in_stock := None; stock_status := None |}).
  - intros opts ps q fr Hin. simpl in Hin.
    apply List.in_map_iff in Hin as (p & <- & Hp). simpl.
    destruct ps as [| p0 ps]; [destruct Hp |].
    simpl in Hp. destruct Hp as [<- | []]. simpl. left. reflexivity.
  - vm_compute. auto.
Defined.

(** ** Pages *)

(** For an offset and a limit of at least 0, the window is the [limit]
    elements after the first [offset]. *)
Lemma js_slice_window {A} (l : list A) (off lim : Z) :
  0 <= off -> 0 <= lim ->
  js_slice l off (off + lim)
  = List.firstn (Z.to_nat lim) (List.skipn (Z.to_nat off) l).
Proof.
  intros Hoff Hlim. unfold js_slice, slice_index.
  destruct (Z.ltb_spec off 0); [lia |].
  destruct (Z.ltb_spec (off + lim) 0); [lia |].
  destruct (Z.le_gt_cases (Z.of_nat (length l)) off) as [Hout | Hin].
  - rewrite (List.skipn_all2 (n := Z.to_nat off)) by lia.
    rewrite (List.skipn_all2 (n := Z.to_nat (Z.min off (Z.of_nat (length l)))))
      by lia.
    rewrite !List.firstn_nil. reflexivity.
  - replace (Z.min off (Z.of_nat (length l))) with off by lia.
    destruct (Z.le_gt_cases (off + lim) (Z.of_nat (length l))) as [Hfit | Hcut].
    + replace (Z.min (off + lim) (Z.of_nat (length l))) with (off + lim) by lia.
      f_equal. lia.
    + replace (Z.min (off + lim) (Z.of_nat (length l)))
        with (Z.of_nat (length l)) by lia.
      rewrite !List.firstn_all2; [reflexivity | |];
        rewrite List.length_skipn; lia.
Qed.

(** X12. The pages of one search tile its results: for an offset and
    limits of at least 0, the page at [offset] followed by the page at
    [offset + limit] is the page at [offset] of the two limits together; no
    result is skipped or returned twice. *)
Theorem consecutive_pages_tile `{Externals} (products : list Product)
    (params : SearchParams) (off lim lim' : Z) (w w' w'' : World) :
  0 <= off -> 0 <= lim -> 0 <= lim' ->
  results (fst (search products (withWindow params lim off) w))
  ++ results (fst (search products (withWindow params lim' (off + lim)) w'))
  = results (fst (search products (withWindow params (lim + lim') off) w'')).
Proof.
  intros Hoff Hlim Hlim'. rewrite !search_results. simpl.
  change (rankedResults products (withWindow params lim off))
    with (rankedResults products params).
  change (rankedResults products (withWindow params lim' (off + lim)))
    with (rankedResults products params).
  change (rankedResults products (withWindow params (lim + lim') off))
    with (rankedResults products params).
  rewrite <- List.map_app. f_equal.
  rewrite !js_slice_window by lia.
  replace (Z.to_nat (off + lim)) with (Z.to_nat lim + Z.to_nat off)%nat by lia.
  rewrite <- List.skipn_skipn.
  replace (Z.to_nat (lim + lim')) with (Z.to_nat lim + Z.to_nat lim')%nat by lia.
  apply take_take_drop.
Qed.

Lemma consecutive_pages_tile_witness :
  results (fst (@search Sample.shop [Sample.pixel8; Sample.pixel7; Sample.soldOut]
                  (withWindow Sample.noParams 1 1) Sample.start))
  ++ results (fst (@search Sample.shop [Sample.pixel8; Sample.pixel7; Sample.soldOut]
                     (withWindow Sample.noParams 1 (1 + 1)) Sample.start))
  = results (fst (@search Sample.shop [Sample.pixel8; Sample.pixel7; Sample.soldOut]
                    (withWindow Sample.noParams (1 + 1) 1) Sample.start)).
Proof.
  apply (@consecutive_pages_tile Sample.shop); lia.
Defined.

Lemma search_pagination_consistent_witness :
  hasNext (metadata (fst (@search Sample.shop
     [Sample.pixel8; Sample.pixel7; Sample.soldOut]
     (withWindow Sample.noParams 2 0) Sample.start))) = true /\
  Z.of_nat (length (results (fst (@search Sample.shop
     [Sample.pixel8; Sample.pixel7; Sample.soldOut]
     (withWindow Sample.noParams 2 0) Sample.start)))) = 2.
Proof.
  destruct (@search_pagination_consistent Sample.shop
              [Sample.pixel8; Sample.pixel7; Sample.soldOut]
              (withWindow Sample.noParams 2 0) Sample.start
              ltac:(simpl; lia) ltac:(simpl; lia)) as (Hnext & _ & Hlen).
  split; [exact Hnext | exact Hlen].
Defined.

(** ** Filters at their edges *)

Lemma applyBasicFilters_none (products : list Product) (f : Filters) :
  (forall p, In p products -> ~ FilterSpec.satisfies f p) ->
  applyBasicFilters products f = [].
Proof.
  unfold applyBasicFilters. intros Hnone.
  induction products as [| p ps IH]; [reflexivity |].
  simpl. destruct (keep_product f p) eqn:Hk.
  - apply keep_product_spec in Hk. exfalso. apply (Hnone p); simpl; auto.
  - apply IH. intros q Hq. apply Hnone. simpl; auto.
Qed.

Lemma performTextSearch_nil `{Externals} (q : string) :
  fuse_returns_candidates -> performTextSearch [] q = [].
Proof.
  intros Hfuse. unfold performTextSearch, fuzzySearch. simpl.
  destruct (Fuse_search fuseOptions [] q) as [| fr frs] eqn:Hf; [reflexivity |].
  exfalso. apply (Hfuse fuseOptions [] q fr). rewrite Hf. simpl; auto.
Qed.

(** X14. A price range whose maximum lies below its minimum is not an error
    and is not reordered: no product passes the filter stage, and the engine
    answers with no result and a total of 0 (Fuse, built on no item,
    reporting none). *)
Theorem inverted_price_range_finds_nothing `{Externals}
    (products : list Product) (params : SearchParams) (w : World) (lo hi : Q) :
  fuse_returns_candidates ->
  minPrice params = Some lo -> maxPrice params = Some hi -> (hi < lo)%Q ->
  applyBasicFilters products (filtersOf params) = [] /\
  results (fst (search products params w)) = [] /\
  total (metadata (fst (search products params w))) = 0.
Proof.
  intros Hfuse Hlo Hhi Hinv.
  assert (Hnone : applyBasicFilters products (filtersOf params) = []).
  { apply applyBasicFilters_none.
    intros p _ (_ & _ & _ & [Hmin Hmax] & _).
    unfold filtersOf in Hmin, Hmax. simpl in Hmin, Hmax.
    rewrite Hlo in Hmin. rewrite Hhi in Hmax. simpl in Hmin, Hmax. lra. }
  assert (Hranked : rankedResults products params = []).
  { unfold rankedResults. fold (filtersOf params). rewrite Hnone.
    destruct (Str.truthy (default "" (query params))
              && (0 <? String.length (Str.trim (default "" (query params))))%nat);
      [rewrite performTextSearch_nil by exact Hfuse |]; reflexivity. }
  split; [exact Hnone |]. split.
  - rewrite search_results, Hranked. unfold js_slice. simpl.
    rewrite List.skipn_nil, List.firstn_nil. reflexivity.
  - destruct (search_metadata products params w) as (-> & _).
    rewrite Hranked. reflexivity.
Qed.

Lemma inverted_price_range_finds_nothing_witness :
  results (fst (@search Sample.firstHitShop
     [Sample.pixel8; Sample.pixel7; Sample.soldOut]
     {| query := None; p_brand := None; p_category := None;
        minPrice := Some (500 # 1); maxPrice := Some (100 # 1);
        inStock := None; sortBy := None; sortOrder := None;
        limit := None; offset := None |} Sample.start)) = [].
Proof.
  refine (proj1 (proj2 (@inverted_price_range_finds_nothing Sample.firstHitShop
            [Sample.pixel8; Sample.pixel7; Sample.soldOut] _ Sample.start
            (500 # 1) (100 # 1) _ _ _ _))).
  - intros opts ps q fr Hin. simpl in Hin.
    apply List.in_map_iff in Hin as (p & <- & Hp). simpl.
    destruct ps as [| p0 ps]; [destruct Hp |].
    simpl in Hp. destruct Hp as [<- | []]. simpl. left. reflexivity.
  - reflexivity.
  - reflexivity.
  - reflexivity.
Defined.

(** ** Browsing without a query *)

(** Where no element compares behind a later one, the sort changes
    nothing. *)
Lemma js_sort_ties {A} (cmp : A -> A -> Q) (l : list A) :
  (forall a b, In a l -> In b l -> Qltb 0 (cmp a b) = false) ->
  js_sort cmp l = l.
Proof.
  induction l as [| x l IH]; intros Hcmp; [reflexivity |].
  simpl. rewrite IH by (intros a b Ha Hb; apply Hcmp; simpl; auto).
  destruct l as [| y l]; [reflexivity |]. simpl.
  rewrite Hcmp by (simpl; auto). reflexivity.
Qed.

Lemma boosted_in_stock (p : Product) :
  0 < stock_quantity p -> (1 <= boosted (unscored p))%Q.
Proof.
  intros Hstock. unfold boosted. simpl.
  destruct (Z.leb_spec (stock_quantity p) 0); [lia |].
  destruct (is_featured p), (is_bestseller p), (opt_gt (average_rating p) 4),
    (10 <? stock_quantity p); lra.
Qed.

(** X15. Without a text query and with the in-stock filter on, every
    product that passes the filters ends with a final score of 1, boosts or
    not; under the relevance key the sort then has nothing to order, and the
    engine returns the products in the order of the candidate list, in
    either direction. *)
Theorem browsing_in_stock_keeps_candidate_order `{Externals}
    (products : list Product) (params : SearchParams) :
  default "" (query params) = "" ->
  inStock params = Some true ->
  default "relevance" (sortBy params) = "relevance" ->
  List.map item (rankedResults products params)
  = applyBasicFilters products (filtersOf params) /\
  (forall m, In m (rankedResults products params) -> (score m == 1)%Q).
Proof.
  intros Hq Hstock Hsort.
  set (scored := applyAdvancedScoring
                   (List.map unscored (applyBasicFilters products (filtersOf params)))).
  assert (Hone : forall m, In m scored -> (score m == 1)%Q).
  { intros m Hm. unfold scored, applyAdvancedScoring in Hm.
    apply List.in_map_iff in Hm as (r & <- & Hr).
    apply List.in_map_iff in Hr as (p & <- & Hp). simpl.
    apply applyBasicFilters_sound in Hp as (_ & _ & _ & _ & Hs).
    unfold FilterSpec.stock_ok, filtersOf in Hs. simpl in Hs.
    rewrite Hstock in Hs. specialize (Hs eq_refl).
    apply Q.min_r, boosted_in_stock. lia. }
  assert (Hranked : rankedResults products params = scored).
  { unfold rankedResults. fold (filtersOf params). rewrite Hq, Hsort. simpl.
    fold scored. unfold sortResults. apply js_sort_ties.
    intros a b Ha Hb. apply Qltb_ge. unfold comparison. simpl String.eqb.
    cbv iota. rewrite (Hone a Ha), (Hone b Hb).
    destruct (String.eqb (default "desc" (sortOrder params)) "asc"); lra. }
  rewrite Hranked. split; [| exact Hone].
  unfold scored, applyAdvancedScoring. rewrite !List.map_map. simpl.
  apply List.map_id.
Qed.

Lemma browsing_in_stock_keeps_candidate_order_witness :
  List.map item
    (@rankedResults Sample.shop [Sample.pixel7; Sample.soldOut; Sample.pixel8]
       {| query := None; p_brand := None; p_category := None;
          minPrice := None; maxPrice := None; inStock := Some true;
          sortBy := None; sortOrder := None; limit := None; offset := None |})
  = [Sample.pixel7; Sample.pixel8].
Proof.
  refine (proj1 (@browsing_in_stock_keeps_candidate_order Sample.shop
                   [Sample.pixel7; Sample.soldOut; Sample.pixel8] _ _ _ _));
    reflexivity.
Defined.

(** ** Keywords *)

Lemma dedup_first_spec (l : list string) :
  forall seen,
    NoDup (dedup_first seen l) /\
    (forall x, In x (dedup_first seen l) <-> In x l /\ ~ In x seen).
Proof.
  assert (Hex : forall x seen,
             List.existsb (String.eqb x) seen = true <-> In x seen).
  { intros x seen. rewrite List.existsb_exists. split.
    - intros (y & Hy & Heq). apply String.eqb_eq in Heq. subst. exact Hy.
    - intros Hx. exists x. split; [exact Hx | apply String.eqb_refl]. }
  induction l as [| x l IH]; intros seen; simpl.
  - split; [apply NoDup_nil_2 | intros y; tauto].
  - destruct (List.existsb (String.eqb x) seen) eqn:Hseen.
    + apply Hex in Hseen. destruct (IH seen) as [Hnd Hin]. split; [exact Hnd |].
      intros y. rewrite Hin. split; [tauto |].
      intros [[<- | Hy] Hn]; [contradiction | tauto].
    + assert (Hnot : ~ In x seen)
        by (intros Hx; apply Hex in Hx; congruence).
      destruct (IH (x :: seen)) as [Hnd Hin]. split.
      * apply NoDup_cons. split; [| exact Hnd].
        intros Hx. apply list_elem_of_In, Hin in Hx. simpl in Hx. tauto.
      * intros y. simpl. rewrite Hin. simpl. split.
        -- intros [<- | [Hy Hn]]; tauto.
        -- intros [[<- | Hy] Hn]; [tauto |].
           destruct (String.eqb_spec x y) as [-> | Hne]; [tauto |]. tauto.
Qed.

(** X16. The keywords generated for a product are pairwise distinct and
    each has at least two characters; each is a piece of the lowercased
    name, or the lowercased brand name, category name or model. *)
Theorem generateKeywords_distinct (product : Product) :
  NoDup (generateKeywords product) /\
  (forall k, In k (generateKeywords product) ->
     (2 <= String.length k)%nat /\
     (In k (Str.split_ws (Str.toLowerCase (name product))) \/
      Some k = option_map Str.toLowerCase (ref_name_of (brand product)) \/
      Some k = option_map Str.toLowerCase (ref_name_of (category product)) \/
      Some k = option_map Str.toLowerCase (model product))).
Proof.
  unfold generateKeywords.
  set (raw := _ ++ _).
  destruct (dedup_first_spec
              (List.filter (fun k => Str.truthy k && (1 <? String.length k)%nat) raw)
              []) as [Hnd Hin].
  split; [exact Hnd |]. intros k Hk.
  apply Hin in Hk as [Hk _]. apply List.filter_In in Hk as [Hraw Hlen].
  apply andb_true_iff in Hlen as [_ Hlen]. apply Nat.ltb_lt in Hlen.
  split; [lia |].
  assert (Hlower : forall s, In k (lower_if_truthy s) ->
                             Some k = option_map Str.toLowerCase s).
  { intros [v |]; simpl; [| intros []].
    destruct (Str.truthy v); [| intros []]. intros [<- | []]. reflexivity. }
  unfold raw in Hraw.
  apply List.in_app_or in Hraw as [Hraw | Hraw].
  { left. destruct (Str.truthy (name product)); [exact Hraw | destruct Hraw]. }
  apply List.in_app_or in Hraw as [Hraw | Hraw]; [right; left; auto |].
  apply List.in_app_or in Hraw as [Hraw | Hraw]; [right; right; left; auto |].
  right; right; right; auto.
Qed.

(** ** The merge as a whole *)

Lemma combine_concat_from (arrays : list (list MatchRecord)) :
  forall m,
    List.fold_left
      (fun resultsMap results => List.fold_left combine_step results resultsMap)
      arrays m
    = List.fold_left combine_step (List.concat arrays) m.
Proof.
  induction arrays as [| a arrays IH]; intros m; simpl; [reflexivity |].
  rewrite List.fold_left_app. apply IH.
Qed.

Lemma combine_inv (arrays : list (list MatchRecord)) :
  merge_inv
    (List.fold_left combine_step (List.concat arrays) JsMap.empty)
    (List.concat arrays).
Proof.
  apply (merge_inv_fold (List.concat arrays) JsMap.empty [] merge_inv_empty).
Qed.

Lemma values_ids (m : JsMap.t MatchRecord) :
  (forall k v, In (k, v) m -> id (item v) = k) ->
  List.map (fun r => id (item r)) (JsMap.values m) = List.map fst m.
Proof.
  unfold JsMap.values. induction m as [| [k v] m IH]; intros Hkey;
    [reflexivity |].
  simpl. rewrite (Hkey k v) by (simpl; auto).
  rewrite IH by (intros; apply Hkey; simpl; auto). reflexivity.
Qed.

Lemma merged_of_Some_iff (k : string) (seen : list MatchRecord) :
  merged_of k seen <> None <->
  In k (List.map (fun r => id (item r)) seen).
Proof.
  unfold merged_of. rewrite List.in_map_iff. split.
  - destruct (candidates k seen) as [| first later] eqn:Hc; [congruence |].
    intros _. exists first.
    pose proof (List.in_eq first later) as Hf. rewrite <- Hc in Hf.
    split; [eapply candidates_id, Hf |].
    unfold candidates in Hf. apply List.filter_In in Hf. tauto.
  - intros (r & <- & Hr).
    assert (Hc : In r (candidates (id (item r)) seen)).
    { unfold candidates. apply List.filter_In. split; [exact Hr |].
      apply String.eqb_refl. }
    destruct (candidates (id (item r)) seen); [destruct Hc | discriminate].
Qed.

Lemma combineSearchResults_ids_distinct
    (resultArrays : list (list MatchRecord)) :
  NoDup (List.map (fun r => id (item r)) (combineSearchResults resultArrays)).
Proof.
  unfold combineSearchResults. rewrite combine_concat_from.
  pose proof (combine_inv resultArrays) as Hinv.
  rewrite values_ids by (intros k v; apply (merge_inv_entry _ _ _ _ Hinv)).
  apply (inv_keys _ _ Hinv).
Qed.

(** X17. Whatever the lists it is given, the merge returns one record per
    product: no two records of its result carry the same product id, the ids
    of the result are exactly the ids found in the lists, and the result is
    no longer than the lists together. *)
Theorem combineSearchResults_one_record_per_product
    (resultArrays : list (list MatchRecord)) :
  let ids := List.map (fun r : MatchRecord => id (item r)) in
  NoDup (ids (combineSearchResults resultArrays)) /\
  (forall k, In k (ids (combineSearchResults resultArrays)) <->
             In k (ids (List.concat resultArrays))) /\
  (length (combineSearchResults resultArrays)
   <= length (List.concat resultArrays))%nat.
Proof.
  intros ids. unfold combineSearchResults. rewrite combine_concat_from.
  pose proof (combine_inv resultArrays) as Hinv.
  set (m := List.fold_left combine_step (List.concat resultArrays) JsMap.empty)
    in *.
  assert (Hids : ids (JsMap.values m) = List.map fst m).
  { apply values_ids. intros k v. apply (merge_inv_entry _ _ _ _ Hinv). }
  assert (Hnd : NoDup (ids (JsMap.values m)))
    by (rewrite Hids; apply (inv_keys _ _ Hinv)).
  assert (Hsame : forall k, In k (ids (JsMap.values m)) <->
                            In k (ids (List.concat resultArrays))).
  { intros k. rewrite Hids. unfold ids. rewrite <- merged_of_Some_iff.
    rewrite <- (inv_get _ _ Hinv). split.
    - intros Hin Hnone. apply JsMap_get_None_keys in Hnone. contradiction.
    - intros Hsome. destruct (List.in_dec String.string_dec k (List.map fst m))
        as [Hin | Hout]; [exact Hin |].
      apply JsMap_get_None_keys in Hout. contradiction. }
  split; [exact Hnd |]. split; [exact Hsame |].
  rewrite <- (List.length_map (fun r : MatchRecord => id (item r))
                (JsMap.values m)).
  rewrite <- (List.length_map (fun r : MatchRecord => id (item r))
                (List.concat resultArrays)).
  apply List.NoDup_incl_length; [apply NoDup_ListNoDup, Hnd |].
  intros k. apply Hsame.
Qed.

Lemma JsMap_set_absent {V} (k : string) (v : V) (m : JsMap.t V) :
  JsMap.get k m = None -> JsMap.set k v m = m ++ [(k, v)].
Proof.
  induction m as [| [k' v'] m IH]; simpl; [reflexivity |].
  destruct (String.eqb k' k); [discriminate |].
  intros Hk. rewrite IH by exact Hk. reflexivity.
Qed.

Lemma JsMap_get_snoc_None {V} (k k0 : string) (v : V) (m : JsMap.t V) :
  JsMap.get k m = None -> k0 <> k -> JsMap.get k (m ++ [(k0, v)]) = None.
Proof.
  intros Hk Hne. induction m as [| [k' v'] m IH]; simpl in *.
  - destruct (String.eqb_spec k0 k); [contradiction | reflexivity].
  - destruct (String.eqb k' k); [discriminate | apply IH, Hk].
Qed.

(** Records of distinct products, none of them in the map yet, are stored
    one after the other as they are. *)
Lemma combine_distinct (l : list MatchRecord) :
  forall m,
    NoDup (List.map (fun r => id (item r)) l) ->
    (forall r, In r l -> JsMap.get (id (item r)) m = None) ->
    List.fold_left combine_step l m
    = m ++ List.map (fun r => (id (item r), r)) l.
Proof.
  induction l as [| r l IH]; intros m Hnd Hfresh; simpl.
  - rewrite List.app_nil_r. reflexivity.
  - apply NoDup_cons in Hnd as [Hr Hnd].
    unfold combine_step at 2. rewrite (Hfresh r) by (simpl; auto).
    rewrite JsMap_set_absent by (apply Hfresh; simpl; auto).
    rewrite IH; [rewrite <- List.app_assoc; reflexivity | exact Hnd |].
    intros r' Hr'. apply JsMap_get_snoc_None; [apply Hfresh; simpl; auto |].
    intros Heq. apply Hr. rewrite Heq. apply list_elem_of_In.
    apply (List.in_map (fun r => id (item r))), Hr'.
Qed.

(** X18. Merging is idempotent: the merge of a merged list alone is that
    list, records, scores and order unchanged. *)
Theorem combineSearchResults_idempotent
    (resultArrays : list (list MatchRecord)) :
  combineSearchResults [combineSearchResults resultArrays]
  = combineSearchResults resultArrays.
Proof.
  pose proof (combineSearchResults_ids_distinct resultArrays) as Hnd.
  unfold combineSearchResults at 1. simpl.
  rewrite combine_distinct; [| exact Hnd | reflexivity].
  simpl. unfold JsMap.values. rewrite List.map_map. simpl.
  apply List.map_id.
Qed.

(** ** Boosts *)

(** X19. For a raw score in [0, 1]: the boosts never lower the score of a
    product in stock, and a product out of stock never ends above its raw
    score, whatever its other boosts; for one product a higher raw score
    never gives a lower final score. *)
Theorem boosts_respect_stock (r r' : MatchRecord) :
  (0 <= score r)%Q -> (score r <= 1)%Q ->
  let final x := Qmin (boosted x) 1 in
  (0 < stock_quantity (item r) -> (score r <= final r)%Q) /\
  (stock_quantity (item r) <= 0 -> (final r <= score r)%Q) /\
  (item r' = item r -> (score r <= score r')%Q -> (final r <= final r')%Q).
Proof.
  intros Hlo Hhi final. unfold final. split; [| split].
  - intros Hstock. apply Q.min_glb; [| exact Hhi].
    unfold boosted.
    destruct (Z.leb_spec (stock_quantity (item r)) 0); [lia |].
    destruct (is_featured (item r)), (is_bestseller (item r)),
      (opt_gt (average_rating (item r)) 4), (10 <? stock_quantity (item r)); lra.
  - intros Hstock. eapply Qle_trans; [apply Q.le_min_l |].
    unfold boosted.
    destruct (Z.leb_spec (stock_quantity (item r)) 0); [| lia].
    destruct (Z.ltb_spec 10 (stock_quantity (item r))); [lia |].
    destruct (is_featured (item r)), (is_bestseller (item r)),
      (opt_gt (average_rating (item r)) 4); lra.
  - intros Hitem Hle. apply Q.min_le_compat_r.
    unfold boosted. rewrite Hitem.
    destruct (is_featured (item r)), (is_bestseller (item r)),
      (opt_gt (average_rating (item r)) 4), (10 <? stock_quantity (item r)),
      (stock_quantity (item r) <=? 0); lra.
Qed.

Lemma boosts_respect_stock_witness :
  (Qmin (boosted (Sample.record Sample.soldOut (9 # 10))) 1 <= 9 # 10)%Q.
Proof.
  refine (proj1 (proj2 (boosts_respect_stock
                          (Sample.record Sample.soldOut (9 # 10))
                          (Sample.record Sample.soldOut (9 # 10)) _ _)) _).
  - discriminate.
  - discriminate.
  - simpl. lia.
Defined.

(** ** Sort keys, continued *)

Lemma sortResults_price_desc_sorted `{Externals} (rs : list MatchRecord) :
  Sorted (fun a b => (parseFloat_or0 (price (item b))
                      <= parseFloat_or0 (price (item a)))%Q)
    (sortResults rs "price" "desc").
Proof.
  unfold sortResults. simpl. apply js_sort_in_order.
  - intros a b Hc. apply Qltb_lt in Hc. unfold comparison in Hc.
    simpl String.eqb in Hc. cbv iota in Hc. lra.
  - intros a b Hc. apply Qltb_ge in Hc. unfold comparison in Hc.
    simpl String.eqb in Hc. cbv iota in Hc. lra.
Qed.

(** X20. Sorting never drops or repeats a record: under every key and
    direction the result is a rearrangement of the input.  Under the key
    "price" it is in ascending order of price for "asc" and in descending
    order for any other direction, a missing or unreadable price counting
    as 0. *)
Theorem sortResults_rearranges_by_price `{Externals} (rs : list MatchRecord)
    (sortBy sortOrder : string) :
  Permutation (sortResults rs sortBy sortOrder) rs /\
  Sorted (fun a b => (parseFloat_or0 (price (item a))
                      <= parseFloat_or0 (price (item b)))%Q)
    (sortResults rs "price" "asc") /\
  (sortOrder <> "asc" ->
   Sorted (fun a b => (parseFloat_or0 (price (item b))
                       <= parseFloat_or0 (price (item a)))%Q)
     (sortResults rs "price" sortOrder)).
Proof.
  split; [apply js_sort_perm |]. split; [apply sortResults_price_asc_sorted |].
  intros Hdesc.
  replace (sortResults rs "price" sortOrder) with (sortResults rs "price" "desc");
    [apply sortResults_price_desc_sorted |].
  unfold sortResults.
  destruct (String.eqb_spec sortOrder "asc"); [contradiction | reflexivity].
Qed.

(** ** A match on the name *)

Lemma hit_grows (field : string) (value : option string) (word : string)
    (w : Q) (acc : Q * list MatchInfo) :
  (0 <= w)%Q -> (fst acc <= fst (hit field value word w acc))%Q.
Proof.
  intros Hw. unfold hit. destruct (field_includes value word); simpl; lra.
Qed.

Lemma exact_score_name (p : Product) (ql : string) :
  name p <> "" ->
  Str.includes (Str.toLowerCase (name p)) ql = true ->
  (9 # 10 <= fst (exact_score p ql))%Q.
Proof.
  intros Hname Hinc. unfold exact_score.
  eapply Qle_trans; [| apply hit_grows; discriminate].
  eapply Qle_trans; [| apply hit_grows; discriminate].
  unfold hit, field_includes. apply truthy_nonempty in Hname.
  rewrite Hname, Hinc. simpl. lra.
Qed.

(** X21. A candidate whose name contains the query, letter case aside, is
    found by the text search: the merged list holds a record for its product
    id whose score is at least 0.9, whatever the other matchers report. *)
Theorem name_match_scores_high `{Externals} (products : list Product)
    (q : string) (p : Product) :
  In p products ->
  name p <> "" ->
  Str.includes (Str.toLowerCase (name p)) (Str.toLowerCase q) = true ->
  exists m,
    In m (performTextSearch products q) /\
    id (item m) = id p /\
    (9 # 10 <= score m)%Q.
Proof.
  intros Hp Hname Hinc.
  set (sp := List.map searchable products).
  set (found := fuzzySearch sp q ++ findExactMatches sp q
                ++ findPartialMatches sp q).
  pose proof (exact_score_name (searchable p) (Str.toLowerCase q) Hname Hinc)
    as Hscore.
  destruct (exact_score (searchable p) (Str.toLowerCase q)) as [s ms] eqn:Hes.
  simpl in Hscore.
  set (r := {| item := searchable p; score := Qmin s 1; matches := ms;
               algorithm := Some "exact"; refIndex := None |}).
  assert (Hr : In r found).
  { unfold found. apply List.in_or_app. right. apply List.in_or_app. left.
    unfold findExactMatches. apply List.in_flat_map.
    exists (searchable p). split; [apply List.in_map, Hp |].
    rewrite Hes.
    assert (Hpos : Qltb 0 s = true) by (apply Qltb_lt; lra).
    rewrite Hpos. simpl. auto. }
  assert (Hcand : In r (candidates (id p) found)).
  { unfold candidates. apply List.filter_In. split; [exact Hr |].
    simpl. apply String.eqb_refl. }
  pose proof (combine_candidates (fuzzySearch sp q) (findExactMatches sp q)
                (findPartialMatches sp q) (id p)) as Hout.
  fold found in Hout. unfold merged_of in Hout.
  destruct (candidates (id p) found) as [| first later] eqn:Hc;
    [destruct Hcand |].
  exists (with_score first (best_score (score first) later)).
  assert (Hin : In (with_score first (best_score (score first) later))
                  (candidates (id p) (performTextSearch products q))).
  { unfold performTextSearch. fold sp. rewrite Hout. simpl. auto. }
  split; [| split].
  - unfold candidates in Hin. apply List.filter_In in Hin. tauto.
  - eapply candidates_id, Hin.
  - simpl. destruct (best_score_max (score first) later) as (Hlo & Hall & _).
    assert (Hrs : (9 # 10 <= score r)%Q)
      by (simpl; apply Q.min_glb; [exact Hscore | discriminate]).
    eapply Qle_trans; [exact Hrs |].
    destruct Hcand as [<- | Hlater]; [exact Hlo | apply Hall, Hlater].
Qed.

Lemma name_match_scores_high_witness :
  exists m,
    In m (@performTextSearch Sample.shop [Sample.pixel7; Sample.pixel8] "PIXEL 8") /\
    id (item m) = "p1" /\
    (9 # 10 <= score m)%Q.
Proof.
  apply (@name_match_scores_high Sample.shop [Sample.pixel7; Sample.pixel8]
           "PIXEL 8" Sample.pixel8).
  - simpl. auto.
  - discriminate.
  - reflexivity.
Defined.

(** ** Stock fields of the response *)

(** X22. Every item of an enhanced result carries its stock fields, and
    they agree: [in_stock] is true exactly when the stock quantity is
    positive, which is exactly when [stock_status] is not "out_of_stock";
    the status is one of the four known ones, and score, matches, product
    and metadata are those of the engine's result. *)
Theorem enhanced_stock_fields_agree (searchResult : SearchResult)
    (it : ResultItem) :
  In it (results (enhanceSearchResults searchResult)) ->
  exists (b : bool) (st : string),
    in_stock it = Some b /\ stock_status it = Some st /\
    (b = true <-> 0 < stock_quantity (r_product it)) /\
    (b = true <-> st <> "out_of_stock") /\
    In st ["out_of_stock"; "low_stock"; "medium_stock"; "in_stock"] /\
    (exists it0, In it0 (results searchResult) /\
                 r_product it = r_product it0 /\
                 _searchScore it = _searchScore it0 /\
                 _matches it = _matches it0) /\
    metadata (enhanceSearchResults searchResult) = metadata searchResult.
Proof.
  unfold enhanceSearchResults. simpl. rewrite List.in_map_iff.
  intros (it0 & <- & Hin). simpl.
  exists (0 <? stock_quantity (r_product it0)),
    (getStockStatus (stock_quantity (r_product it0))).
  split; [reflexivity |]. split; [reflexivity |].
  split; [apply Z.ltb_lt |].
  unfold getStockStatus.
  destruct (Z.ltb_spec 0 (stock_quantity (r_product it0))) as [Hpos | Hnon],
    (Z.leb_spec (stock_quantity (r_product it0)) 0); try lia.
  - destruct (stock_quantity (r_product it0) <=? 5),
      (stock_quantity (r_product it0) <=? 20); simpl;
      (split; [split; [discriminate | reflexivity] |]);
      (split; [tauto |]); (split; [eauto | reflexivity]).
  - simpl. split; [split; [discriminate | congruence] |].
    split; [tauto |]. split; [eauto | reflexivity].
Qed.

Lemma enhanced_stock_fields_agree_witness :
  exists (b : bool) (st : string),
    in_stock (enhance_item (to_result_item (Sample.record Sample.soldOut 1)))
    = Some b /\
    stock_status (enhance_item (to_result_item (Sample.record Sample.soldOut 1)))
    = Some st /\
    (b = true <-> 0 < 0) /\ (b = true <-> st <> "out_of_stock").
Proof.
  destruct (enhanced_stock_fields_agree
              {| results := [to_result_item (Sample.record Sample.soldOut 1)];
                 metadata := metadata (emptyResult Sample.noParams 0 0) |}
              (enhance_item (to_result_item (Sample.record Sample.soldOut 1)))
              ltac:(simpl; auto))
    as (b & st & Hb & Hst & Hpos & Hout & _).
  exists b, st. repeat split; try assumption; apply Hpos || apply Hout.
Defined.

(** ** One-word queries *)

Lemma rev_app_rev_app (s a b : string) :
  String.rev_app (String.rev_app s a) b = String.rev_app a (s ++ b)%string.
Proof.
  revert a b. induction s as [| c s IH]; intros a b; simpl; [reflexivity |].
  rewrite IH. reflexivity.
Qed.

Lemma string_app_empty (s : string) : (s ++ "")%string = s.
Proof.
  induction s as [| c s IH]; [reflexivity |].
  change (String c (s ++ "")%string = String c s). f_equal. exact IH.
Qed.

Lemma split_go_one_word (s cur : string) :
  has_ws s = false ->
  Str.split_go s cur false = [String.rev (String.rev_app s cur)].
Proof.
  revert cur. induction s as [| c s IH]; intros cur Hs; simpl; [reflexivity |].
  simpl in Hs. apply orb_false_iff in Hs as [Hc Hs]. rewrite Hc.
  apply IH, Hs.
Qed.

Lemma split_ws_one_word (s : string) :
  has_ws s = false -> Str.split_ws s = [s].
Proof.
  intros Hs. unfold Str.split_ws. rewrite split_go_one_word by exact Hs.
  unfold String.rev. rewrite rev_app_rev_app. cbn [String.rev_app].
  rewrite string_app_empty. reflexivity.
Qed.

Lemma has_ws_toLowerCase (s : string) : has_ws (Str.toLowerCase s) = has_ws s.
Proof.
  induction s as [| c s IH]; simpl; [reflexivity |].
  rewrite is_ws_lower_char, IH. reflexivity.
Qed.

(** X23. For a query of one word, every product the exact matcher finds is
    found by the partial matcher too, with a score that is not higher; and
    every product the partial matcher finds is either one the exact matcher
    finds, again with a score that is not lower, or one that matches on its
    category name alone, with the score 0.15 and that single match.  On
    such a query the partial matcher adds category matches only and raises
    no score of the exact matcher. *)
Theorem one_word_exact_dominates_partial (products : list Product)
    (q : string) :
  one_word q = true ->
  (forall r, In r (findExactMatches products q) ->
     exists r',
       In r' (findPartialMatches products q) /\
       item r' = item r /\
       (score r' <= score r)%Q) /\
  (forall r', In r' (findPartialMatches products q) ->
     (exists r,
        In r (findExactMatches products q) /\
        item r = item r' /\
        (score r' <= score r)%Q) \/
     (exists c,
        category (item r') = Some c /\
        matches r' = [FieldMatch "category" (ref_name c)] /\
        (score r' == 15 # 100)%Q)).
Proof.
  intros Hone. apply andb_true_iff in Hone as [_ Hword].
  apply negb_true_iff in Hword.
  unfold findExactMatches, findPartialMatches.
  rewrite split_ws_one_word by (rewrite has_ws_toLowerCase; exact Hword).
  set (ql := Str.toLowerCase q). split.
  - intros r. rewrite List.in_flat_map. intros (p & Hp & Hin).
    assert (Hcmp :
      (0 < fst (exact_score p ql))%Q ->
      (0 < fst (partial_word p (0%Q, []) ql))%Q /\
      (fst (partial_word p (0%Q, []) ql) <= fst (exact_score p ql))%Q).
    { unfold exact_score, partial_word, hit.
      destruct (field_includes (Some (name p)) ql),
        (field_includes (model p) ql),
        (field_includes (ref_name_of (brand p)) ql),
        (field_includes (ref_name_of (category p)) ql); simpl; lra. }
    destruct (exact_score p ql) as [s ms] eqn:Hes.
    destruct (Qltb 0 s) eqn:Hpos; [| destruct Hin].
    destruct Hin as [<- | []]. apply Qltb_lt in Hpos.
    destruct (Hcmp Hpos) as [Hppos Hle]. simpl in Hle.
    destruct (partial_word p (0%Q, []) ql) as [s' ms'] eqn:Hpw. simpl in *.
    exists {| item := p; score := Qmin s' 1; matches := ms';
              algorithm := Some "partial"; refIndex := None |}.
    split; [| split; [reflexivity |]].
    + apply List.in_flat_map. exists p. split; [exact Hp |].
      simpl. rewrite Hpw.
      assert (Hb : Qltb 0 s' = true) by (apply Qltb_lt; exact Hppos).
      rewrite Hb. simpl. auto.
    + simpl. apply Q.min_le_compat_r. exact Hle.
  - intros r'. rewrite List.in_flat_map. intros (p & Hp & Hin).
    cbn [List.fold_left] in Hin.
    assert (Hcases :
      ((0 < fst (exact_score p ql))%Q /\
       (fst (partial_word p (0%Q, []) ql) <= fst (exact_score p ql))%Q) \/
      (exists c, category p = Some c /\
         partial_word p (0%Q, []) ql
         = ((0 + (15 # 100))%Q, [FieldMatch "category" (ref_name c)])) \/
      fst (partial_word p (0%Q, []) ql) = 0%Q).
    { unfold exact_score, partial_word, hit.
      destruct (field_includes (Some (name p)) ql),
        (field_includes (model p) ql),
        (field_includes (ref_name_of (brand p)) ql);
        try (left; simpl;
             destruct (field_includes (ref_name_of (category p)) ql);
             simpl; lra).
      right.
      destruct (field_includes (ref_name_of (category p)) ql) eqn:Hcat;
        [left | right; reflexivity].
      destruct (category p) as [c |]; [| discriminate Hcat].
      exists c. split; reflexivity. }
    destruct (partial_word p (0%Q, []) ql) as [s' ms'] eqn:Hpw.
    destruct (Qltb 0 s') eqn:Hpos; [| destruct Hin].
    destruct Hin as [<- | []]. simpl.
    destruct Hcases as [[Hepos Hle] | [(c & Hc & Heq) | Hzero]].
    + left. destruct (exact_score p ql) as [s ms] eqn:Hes. simpl in *.
      exists {| item := p; score := Qmin s 1; matches := ms;
                algorithm := Some "exact"; refIndex := None |}.
      split; [| split; [reflexivity |]].
      * apply List.in_flat_map. exists p. split; [exact Hp |].
        simpl. rewrite Hes.
        assert (Hb : Qltb 0 s = true) by (apply Qltb_lt; exact Hepos).
        rewrite Hb. simpl. auto.
      * simpl. apply Q.min_le_compat_r. exact Hle.
    + right. exists c. injection Heq as -> ->.
      split; [exact Hc |]. split; [reflexivity |].
      rewrite Q.min_l by lra. lra.
    + simpl in Hzero. subst s'. discriminate Hpos.
Qed.

Lemma one_word_exact_dominates_partial_witness :
  exists r',
    In r' (findPartialMatches [Sample.pixel8] "google") /\
    item r' = Sample.pixel8 /\
    (score r' <= 7 # 10)%Q.
Proof.
  apply (proj1 (one_word_exact_dominates_partial [Sample.pixel8] "google"
                  eq_refl)
           {| item := Sample.pixel8; score := 7 # 10;
              matches := [FieldMatch "brand" "Google"];
              algorithm := Some "exact"; refIndex := None |}).
  vm_compute. left. reflexivity.
Defined.

(** ** Requests that pass the validator *)

Lemma is_in_In (allowed : list string) (s : string) :
  is_in allowed s = true <-> In s allowed.
Proof.
  unfold is_in. rewrite List.existsb_exists. split.
  - intros (y & Hy & Heq). apply String.eqb_eq in Heq. subst. exact Hy.
  - intros Hs. exists s. split; [exact Hs | apply String.eqb_refl].
Qed.

(** X24. A request that passes the validator reaches the service with the
    sort key it gives, one of the six accepted ones, and with "relevance"
    when it gives none; with the direction it gives, "asc" or "desc", and
    with "desc" when it gives none; with the minimum price it gives, at
    least 0, and with 0 when it gives none; with a maximum price of at
    least 0 when one is given; and, when given as [query], with the trimmed
    query, of 1 to 255 characters. *)
Theorem validated_params_well_formed (req : RawQuery) :
  validateProductSearch req = [] ->
  let params := controllerParams (sanitized req) in
  (sortBy params = Some (default "relevance" (q_sort_by req)) /\
   In (default "relevance" (q_sort_by req))
      ["relevance"; "price"; "name"; "rating"; "date"; "stock"]) /\
  (sortOrder params = Some (default "desc" (q_sort_order req)) /\
   (default "desc" (q_sort_order req) = "asc" \/
    default "desc" (q_sort_order req) = "desc")) /\
  (exists lo, minPrice params = Some lo /\
     (lo == default 0%Q (q_min_price req))%Q /\ (0 <= lo)%Q) /\
  (maxPrice params = q_max_price req /\
   forall hi, maxPrice params = Some hi -> (0 <= hi)%Q) /\
  (forall s, q_query req = Some s ->
     query params = Some (Str.trim s) /\
     (1 <= String.length (Str.trim s) <= 255)%nat).
Proof.
  unfold validateProductSearch. intros Hv.
  apply List.app_eq_nil in Hv as [Hquery Hv].
  do 2 (apply List.app_eq_nil in Hv as [_ Hv]).
  apply List.app_eq_nil in Hv as [Hmin Hv].
  apply List.app_eq_nil in Hv as [Hmax Hv].
  apply List.app_eq_nil in Hv as [_ Hv].
  apply List.app_eq_nil in Hv as [Hkey Hv].
  apply List.app_eq_nil in Hv as [Hdir _].
  pose proof (proj1 (check_nil _ _ _) Hquery) as Hq.
  pose proof (proj1 (check_nil _ _ _) Hmin) as Hlo.
  pose proof (proj1 (check_nil _ _ _) Hmax) as Hhi.
  pose proof (proj1 (check_nil _ _ _) Hkey) as Hk.
  pose proof (proj1 (check_nil _ _ _) Hdir) as Hd.
  clear Hquery Hmin Hmax Hkey Hdir.
  cbv zeta. unfold controllerParams, sanitized. simpl.
  split; [| split; [| split; [| split]]].
  - destruct (q_sort_by req) as [k |]; simpl; [| auto].
    specialize (Hk k eq_refl). apply is_in_In in Hk.
    destruct k; [simpl in Hk; intuition discriminate |].
    split; [reflexivity | exact Hk].
  - destruct (q_sort_order req) as [d |]; simpl; [| auto].
    specialize (Hd d eq_refl). apply is_in_In in Hd.
    destruct d; [simpl in Hd; intuition discriminate |].
    split; [reflexivity |]. simpl in Hd. intuition.
  - eexists. split; [reflexivity |].
    destruct (q_min_price req) as [lo |]; simpl;
      [| split; [reflexivity | discriminate]].
    specialize (Hlo lo eq_refl). apply Qle_bool_iff in Hlo.
    destruct (Qeq_bool lo 0) eqn:Hz.
    + apply Qeq_bool_iff in Hz. split; [symmetry; exact Hz | discriminate].
    + split; [reflexivity | exact Hlo].
  - split; [reflexivity |].
    intros hi Hmax. apply Qle_bool_iff, Hhi, Hmax.
  - intros s Hs. rewrite Hs. simpl.
    specialize (Hq s Hs). unfold length_between in Hq.
    apply andb_true_iff in Hq as [H1 H2].
    apply Nat.leb_le in H1. apply Nat.leb_le in H2.
    split; [| lia].
    destruct (Str.trim s); [simpl in H1; lia | reflexivity].
Qed.

Lemma validated_params_well_formed_witness :
  sortBy (controllerParams (sanitized (Sample.rawWindow (Some 20) None)))
  = Some "relevance" /\
  sortOrder (controllerParams (sanitized (Sample.rawWindow (Some 20) None)))
  = Some "desc".
Proof.
  destruct (validated_params_well_formed (Sample.rawWindow (Some 20) None)
              eq_refl) as ((Hkey & _) & (Hdir & _) & _).
  split; [exact Hkey | exact Hdir].
Defined.

(** ** Clearing the cache *)

(** X25. After [clearCache] the statistics count no entry and every request
    is computed anew, whatever entry it had before; the counters of the
    tracker are not touched. *)
Theorem clearCache_forces_recomputation `{Externals} (params : SearchParams)
    (w : World) :
  let cleared := snd (clearCache w) in
  totalEntries (fst (getCacheStats cleared)) = 0 /\
  activeEntries (fst (getCacheStats cleared)) = 0 /\
  expiredEntries (fst (getCacheStats cleared)) = 0 /\
  popularSearches cleared = popularSearches w /\
  searchProducts params cleared
  = computeAndCache params (clock (ticks w)) (generateCacheKey params)
      (tick cleared).
Proof.
  cbv zeta. unfold clearCache, getCacheStats, Date_now. simpl.
  rewrite map_filter_empty, map_size_empty. simpl.
  repeat (split; [reflexivity |]).
  unfold searchProducts, mbind, M_bind, Date_now.
  rewrite getFromCache_miss by apply lookup_empty. reflexivity.
Qed.

(** ** Why a product is among the hits *)

Lemma toLowerCase_nonempty (s : string) : s <> "" -> Str.toLowerCase s <> "".
Proof. destruct s; [congruence | discriminate]. Qed.

Lemma findExactMatches_hit (products : list Product) (q : string)
    (r : MatchRecord) :
  In r (findExactMatches products q) ->
  In (item r) products /\
  text_field_includes (item r) (Str.toLowerCase q) = true.
Proof.
  unfold findExactMatches. rewrite List.in_flat_map. intros (p & Hp & Hin).
  destruct (exact_score p (Str.toLowerCase q)) as [s ms] eqn:Hes.
  destruct (Qltb 0 s) eqn:Hpos; [| destruct Hin].
  destruct Hin as [<- | []]. simpl. split; [exact Hp |].
  unfold text_field_includes. unfold exact_score, hit in Hes.
  destruct (field_includes (Some (name p)) (Str.toLowerCase q));
    [reflexivity |].
  destruct (field_includes (model p) (Str.toLowerCase q)); [reflexivity |].
  destruct (field_includes (ref_name_of (brand p)) (Str.toLowerCase q));
    [reflexivity |].
  injection Hes as <- _. discriminate Hpos.
Qed.

Lemma partial_word_miss (p : Product) (acc : Q * list MatchInfo) (w : string) :
  text_field_includes p w = false -> partial_word p acc w = acc.
Proof.
  unfold text_field_includes, partial_word, hit. intros Hmiss.
  apply orb_false_iff in Hmiss as [Hmiss Hcat].
  apply orb_false_iff in Hmiss as [Hmiss Hbrand].
  apply orb_false_iff in Hmiss as [Hname Hmodel].
  rewrite Hname, Hbrand, Hcat, Hmodel. reflexivity.
Qed.

Lemma partial_words_miss (p : Product) (ws : list string)
    (acc : Q * list MatchInfo) :
  (forall w, In w ws -> text_field_includes p w = false) ->
  List.fold_left (partial_word p) ws acc = acc.
Proof.
  revert acc. induction ws as [| w ws IH]; intros acc Hmiss; [reflexivity |].
  simpl. rewrite partial_word_miss by (apply Hmiss; left; reflexivity).
  apply IH. intros w' Hw'. apply Hmiss. right. exact Hw'.
Qed.

Lemma findPartialMatches_hit (products : list Product) (q : string)
    (r : MatchRecord) :
  In r (findPartialMatches products q) ->
  In (item r) products /\
  exists w, In w (Str.split_ws (Str.toLowerCase q)) /\
            text_field_includes (item r) w = true.
Proof.
  unfold findPartialMatches. rewrite List.in_flat_map. intros (p & Hp & Hin).
  set (ws := Str.split_ws (Str.toLowerCase q)) in *.
  destruct (List.existsb (text_field_includes p) ws) eqn:Hany.
  - destruct (List.fold_left (partial_word p) ws (0%Q, [])) as [s ms].
    destruct (Qltb 0 s); [| destruct Hin].
    destruct Hin as [<- | []]. simpl. split; [exact Hp |].
    apply List.existsb_exists in Hany. exact Hany.
  - rewrite partial_words_miss in Hin; [destruct Hin |].
    intros w Hw. destruct (text_field_includes p w) eqn:Hhit; [| reflexivity].
    assert (List.existsb (text_field_includes p) ws = true)
      by (apply List.existsb_exists; eauto).
    congruence.
Qed.

(** X10. The engine trims the query before the text search, so the partial
    matcher never works with an empty token (which every field would
    contain) and no product is a hit for nothing: for a query that is not
    blank, every record of the ranked list stands for an item that Fuse
    reported for the trimmed query, or for a candidate whose name, model,
    brand name or category name contains the lowercased trimmed query or
    one of its words, and that word is not empty. *)
Theorem text_hits_contain_a_word `{Externals} (products : list Product)
    (params : SearchParams) (q : string) (m : MatchRecord) :
  query params = Some q ->
  ascii_only q = true ->
  Str.trim q <> "" ->
  In m (rankedResults products params) ->
  let searched :=
    List.map searchable (applyBasicFilters products (filtersOf params)) in
  let queryLower := Str.toLowerCase (Str.trim q) in
  (exists fr, In fr (Fuse_search fuseOptions searched (Str.trim q)) /\
              fr_item fr = item m) \/
  (exists word,
     (word = queryLower \/ In word (Str.split_ws queryLower)) /\
     word <> "" /\
     In (item m) searched /\
     text_field_includes (item m) word = true).
Proof.
  intros Hquery _ Hq Hin searched queryLower.
  assert (Htext : Str.truthy (default "" (query params))
                  && (0 <? String.length (Str.trim (default "" (query params))))%nat
                  = true).
  { rewrite Hquery. simpl. apply andb_true_iff. split.
    - apply truthy_nonempty. intros ->. apply Hq. reflexivity.
    - destruct (Str.trim q); [congruence | reflexivity]. }
  unfold rankedResults, sortResults in Hin. rewrite js_sort_In in Hin.
  unfold applyAdvancedScoring in Hin. rewrite List.in_map_iff in Hin.
  destruct Hin as (r & <- & Hr). simpl.
  fold (filtersOf params) in Hr. rewrite Htext in Hr.
  rewrite Hquery in Hr. simpl in Hr.
  unfold performTextSearch in Hr.
  apply combine_item_from_input in Hr as (r0 & Hr0 & ->).
  apply List.in_app_or in Hr0 as [Hr0 | Hr0].
  - left. unfold fuzzySearch in Hr0.
    apply List.in_map_iff in Hr0 as (fr & <- & Hfr).
    exists fr. split; [exact Hfr | reflexivity].
  - right. apply List.in_app_or in Hr0 as [Hr0 | Hr0].
    + apply findExactMatches_hit in Hr0 as [Hitem Hhit].
      exists queryLower. split; [left; reflexivity |].
      split; [apply toLowerCase_nonempty, Hq |].
      split; [exact Hitem | exact Hhit].
    + apply findPartialMatches_hit in Hr0 as (Hitem & w & Hw & Hhit).
      exists w. split; [right; exact Hw |].
      split; [eapply split_trimmed_nonempty; [exact Hq | exact Hw] |].
      split; [exact Hitem | exact Hhit].
Qed.

Lemma text_hits_contain_a_word_witness :
  exists word,
    (word = "phones 7" \/ In word ["phones"; "7"]) /\
    word <> "" /\
    text_field_includes (searchable Sample.pixel7) word = true.
Proof.
  destruct (@text_hits_contain_a_word Sample.emptyShop
              [Sample.pixel8; Sample.pixel7] (Sample.byQuery "  Phones 7 ")
              "  Phones 7 "
              (List.nth 1
                 (@rankedResults Sample.emptyShop [Sample.pixel8; Sample.pixel7]
                    (Sample.byQuery "  Phones 7 "))
                 (Sample.record Sample.pixel7 0))
              eq_refl eq_refl
              ltac:(vm_compute; discriminate)
              ltac:(vm_compute; right; left; reflexivity))
    as [(fr & Hfr & _) | (word & Hw & Hne & _ & Hhit)].
  - destruct Hfr.
  - exists word. split; [exact Hw |]. split; [exact Hne | exact Hhit].
Defined.
